(** * AgriShield: the chat exchange between the browser client and the backend

    A shallow embedding of
    - [server.js]: [createSystemPrompt] and the [POST /api/chat] handler;
    - [src/components/chat/ChatWindow.tsx]: [handleSendMessage] and the three
      controls that invoke it (send button, Enter key, suggested questions).

    JavaScript strings are sequences of UTF-16 code units.  What belongs to
    the JavaScript engine and not to the repository (rendering of a Number,
    the implementation-defined part of [Date.parse], the time zone of the
    host) is collected in the class [JsEngine]. *)

From Stdlib Require Import ZArith NArith List Bool Lia.
From Stdlib Require Import Ascii String DecimalString.
From Stdlib Require Decimal DecimalPos DecimalN.
Import ListNotations.

Set Implicit Arguments.

(* ================================================================= *)
(** ** JavaScript values used by the program *)

Module Js.

(** A string value: its UTF-16 code units. *)
Definition jsstring := list N.

(** A string literal of the source (all literals of the program are ASCII). *)
Definition lit (s : string) : jsstring :=
  List.map N_of_ascii (list_ascii_of_string s).

(** The double-quote character, and the line feed of a template literal. *)
Definition dquote : jsstring := [34%N].
Definition nl : jsstring := [10%N].

(** [ToBoolean] on a string: only the empty string is falsy. *)
Definition truthy_string (s : jsstring) : bool :=
  match s with
  | [] => false
  | _ :: _ => true
  end.

Fixpoint jsstring_eqb (a b : jsstring) : bool :=
  match a, b with
  | [], [] => true
  | x :: a', y :: b' => N.eqb x y && jsstring_eqb a' b'
  | _, _ => false
  end.

(** [String.prototype.startsWith] and [String.prototype.includes]. *)
Fixpoint startsWith (s p : jsstring) : bool :=
  match p, s with
  | [], _ => true
  | c :: p', d :: s' => N.eqb c d && startsWith s' p'
  | _ :: _, [] => false
  end.

Fixpoint includes (s p : jsstring) : bool :=
  startsWith s p ||
  match s with
  | [] => false
  | _ :: s' => includes s' p
  end.

(** [p] occurs in [s] as a substring. *)
Definition Substring (p s : jsstring) : Prop :=
  exists pre post, s = pre ++ p ++ post.

(** [Array.prototype.join]. *)
Fixpoint join (sep : jsstring) (xs : list jsstring) : jsstring :=
  match xs with
  | [] => []
  | [x] => x
  | x :: rest => x ++ sep ++ join sep rest
  end.

(** White space and line terminators, the code units [String.prototype.trim]
    strips: TAB, LF, VT, FF, CR, SP, NBSP, U+1680, U+2000..U+200A, U+2028,
    U+2029, U+202F, U+205F, U+3000 and U+FEFF. *)
Definition isWhiteSpace (c : N) : bool :=
  ((9 <=? c) && (c <=? 13) || (c =? 32) || (c =? 160) || (c =? 5760)
   || (8192 <=? c) && (c <=? 8202) || (c =? 8232) || (c =? 8233)
   || (c =? 8239) || (c =? 8287) || (c =? 12288) || (c =? 65279))%N.

Fixpoint trimStart (s : jsstring) : jsstring :=
  match s with
  | [] => []
  | c :: s' => if isWhiteSpace c then trimStart s' else s
  end.

Definition trimEnd (s : jsstring) : jsstring := rev (trimStart (rev s)).

Definition trim (s : jsstring) : jsstring := trimEnd (trimStart s).

(** Decimal digits of a non-negative integer. *)
Definition decimal (z : Z) : jsstring :=
  lit (NilZero.string_of_uint (N.to_uint (Z.to_N z))).

(** [Number::toString] of an integer Number (below [10^21] in magnitude). *)
Definition integer_toString (z : Z) : jsstring :=
  if (z <? 0)%Z then lit "-" ++ decimal (- z) else decimal z.

(** Decimal digits, left-padded with zeros to [width] digits. *)
Definition padStart0 (width : nat) (s : jsstring) : jsstring :=
  repeat 48%N (width - List.length s)%nat ++ s.

(** What the engine, not the repository, decides. *)
Class JsEngine : Type := {
  (** the Number values that can occur as a coordinate *)
  num : Type;
  (** [Number::toString], what a template literal substitutes for a Number *)
  Number_toString : num -> jsstring;
  (** [ToBoolean] on a Number: false for [0], [-0] and [NaN] *)
  Number_truthy : num -> bool;
  (** [Date.parse] on a string that is not in the Date Time String Format:
      the time value in milliseconds, or [None] for [NaN] *)
  Date_parse_fallback : jsstring -> option Z;
  (** offset of the host's local time from UTC, in milliseconds, at the UTC
      time value given *)
  LocalTZA : Z -> Z
}.

(* ----------------------------------------------------------------- *)
(** *** Dates: time values are milliseconds since 1970-01-01T00:00:00Z *)

Local Open Scope Z_scope.

Definition msPerDay : Z := 86400000.

Definition Day (t : Z) : Z := t / msPerDay.
Definition TimeWithinDay (t : Z) : Z := t mod msPerDay.

(** Day of the week of a time value, [0] for Sunday. *)
Definition WeekDay (t : Z) : Z := (Day t + 4) mod 7.

Definition isLeapYear (y : Z) : bool :=
  (y mod 4 =? 0)%Z && (negb (y mod 100 =? 0)%Z || (y mod 400 =? 0)%Z).

Definition DaysInMonth (y m : Z) : Z :=
  if (m =? 2)%Z then (if isLeapYear y then 29 else 28)
  else if (m =? 4)%Z || (m =? 6)%Z || (m =? 9)%Z || (m =? 11)%Z then 30
  else 31.

(** Day number of the proleptic Gregorian date [y]-[m]-[d] ([m] from 1). *)
Definition MakeDay (y m d : Z) : Z :=
  let y' := if (m <=? 2)%Z then y - 1 else y in
  let era := y' / 400 in
  let yoe := y' mod 400 in
  let mp := if (m <=? 2)%Z then m + 9 else m - 3 in
  let doy := (153 * mp + 2) / 5 + d - 1 in
  let doe := yoe * 365 + yoe / 4 - yoe / 100 + doy in
  era * 146097 + doe - 719468.

Definition MakeTime (h mi s ms : Z) : Z :=
  h * 3600000 + mi * 60000 + s * 1000 + ms.

(** Year, month (from 1) and day of the month of a day number. *)
Definition civil_from_days (days : Z) : Z * Z * Z :=
  let z := days + 719468 in
  let era := z / 146097 in
  let doe := z mod 146097 in
  let yoe := (doe - doe / 1460 + doe / 36524 - doe / 146096) / 365 in
  let doy := doe - (365 * yoe + yoe / 4 - yoe / 100) in
  let mp := (5 * doy + 2) / 153 in
  let d := doy - (153 * mp + 2) / 5 + 1 in
  let m := if (mp <? 10)%Z then mp + 3 else mp - 9 in
  let y := yoe + era * 400 in
  ((if (m <=? 2)%Z then y + 1 else y), m, d).

Definition YearFromTime (t : Z) : Z := fst (fst (civil_from_days (Day t))).
Definition MonthFromTime (t : Z) : Z := snd (fst (civil_from_days (Day t))).
Definition DateFromTime (t : Z) : Z := snd (civil_from_days (Day t)).

(** Parsing helpers over code units. *)
Definition digit (c : N) : option Z :=
  if ((48 <=? c) && (c <=? 57))%N then Some (Z.of_N c - 48)%Z else None.

Fixpoint digits (k : nat) (s : jsstring) (acc : Z) : option (Z * jsstring) :=
  match k with
  | O => Some (acc, s)
  | S k' =>
      match s with
      | [] => None
      | c :: s' =>
          match digit c with
          | Some d => digits k' s' (10 * acc + d)%Z
          | None => None
          end
      end
  end.

Definition expect (c : N) (s : jsstring) : option jsstring :=
  match s with
  | c' :: s' => if N.eqb c c' then Some s' else None
  | [] => None
  end.

Definition obind {A B} (o : option A) (k : A -> option B) : option B :=
  match o with
  | Some a => k a
  | None => None
  end.

Notation "x <- o ;; k" := (obind o (fun x => k))
  (at level 61, o at next level, right associativity).
Notation "' p <- o ;; k" := (obind o (fun x => let 'p := x in k))
  (at level 61, p pattern, o at next level, right associativity).

(** The time part [HH:mm:ss] or [HH:mm:ss.sss], followed by the UTC
    designator [Z], of the Date Time String Format. *)
Definition parse_time (s : jsstring) : option Z :=
  '(h, s) <- digits 2 s 0 ;;
  s <- expect 58 s ;;
  '(mi, s) <- digits 2 s 0 ;;
  s <- expect 58 s ;;
  '(sec, s) <- digits 2 s 0 ;;
  if ((h <=? 23) && (mi <=? 59) && (sec <=? 59))%Z then
    match s with
    | [90%N] => Some (MakeTime h mi sec 0)
    | 46%N :: s' =>
        '(ms, s'') <- digits 3 s' 0 ;;
        match s'' with
        | [90%N] => Some (MakeTime h mi sec ms)
        | _ => None
        end
    | _ => None
    end
  else None.

(** The date part [YYYY-MM-DD] of the Date Time String Format: year, month
    and day, each in range, and what follows them. *)
Definition iso_date (s : jsstring) : option (Z * Z * Z * jsstring) :=
  '(y, s) <- digits 4 s 0 ;;
  s <- expect 45 s ;;
  '(m, s) <- digits 2 s 0 ;;
  s <- expect 45 s ;;
  '(d, s) <- digits 2 s 0 ;;
  if ((1 <=? m) && (m <=? 12) && (1 <=? d) && (d <=? DaysInMonth y m))%Z
  then Some (y, m, d, s)
  else None.

(** The forms [YYYY-MM-DD], [YYYY-MM-DDTHH:mm:ssZ] and
    [YYYY-MM-DDTHH:mm:ss.sssZ] of the Date Time String Format, with every
    field in range; on these every engine agrees.  [None] for any other
    string. *)
Definition iso_parse (s : jsstring) : option Z :=
  '(y, m, d, rest) <- iso_date s ;;
  match rest with
  | [] => Some (MakeDay y m d * msPerDay)%Z
  | 84%N :: s' =>
      t <- parse_time s' ;;
      Some (MakeDay y m d * msPerDay + t)%Z
  | _ => None
  end.

Definition weekdayName (w : Z) : jsstring :=
  lit (nth (Z.to_nat w)
         ["Sunday"; "Monday"; "Tuesday"; "Wednesday"; "Thursday"; "Friday";
          "Saturday"]%string EmptyString).

Definition monthName (m : Z) : jsstring :=
  lit (nth (Z.to_nat (m - 1))
         ["January"; "February"; "March"; "April"; "May"; "June"; "July";
          "August"; "September"; "October"; "November"; "December"]%string
         EmptyString).

(** The year as the Gregorian calendar of the [en-US] locale counts it: the
    year of the era. *)
Definition yearOfEra (y : Z) : Z := if (0 <? y)%Z then y else (1 - y)%Z.

(** The long [en-US] date of a local time value: the result of formatting
    with [{ weekday: 'long', year: 'numeric', month: 'long', day: 'numeric' }]. *)
Definition longDate_enUS (local : Z) : jsstring :=
  weekdayName (WeekDay local) ++ lit ", " ++
  monthName (MonthFromTime local) ++ lit " " ++
  decimal (DateFromTime local) ++ lit ", " ++
  decimal (yearOfEra (YearFromTime local)).

(** [toISOString] of a time value whose year has four digits. *)
Definition toISOString (t : Z) : jsstring :=
  let w := TimeWithinDay t in
  padStart0 4 (decimal (YearFromTime t)) ++ lit "-" ++
  padStart0 2 (decimal (MonthFromTime t)) ++ lit "-" ++
  padStart0 2 (decimal (DateFromTime t)) ++ lit "T" ++
  padStart0 2 (decimal (w / 3600000)) ++ lit ":" ++
  padStart0 2 (decimal (w / 60000 mod 60)) ++ lit ":" ++
  padStart0 2 (decimal (w / 1000 mod 60)) ++ lit "." ++
  padStart0 3 (decimal (w mod 1000)) ++ lit "Z".

Section WithEngine.
Context {engine : JsEngine}.

(** [Date.parse]: the Date Time String Format first, then whatever the
    engine recognises. *)
Definition Date_parse (s : jsstring) : option Z :=
  match iso_parse s with
  | Some t => Some t
  | None => Date_parse_fallback s
  end.

(** [new Date(s).toLocaleDateString('en-US', { weekday: 'long', year:
    'numeric', month: 'long', day: 'numeric' })] for a string [s]. *)
Definition toLocaleDateString (s : jsstring) : jsstring :=
  match Date_parse s with
  | Some t => longDate_enUS (t + LocalTZA t)
  | None => lit "Invalid Date"
  end.
End WithEngine.

End Js.

(* ================================================================= *)
(** ** The backend: [server.js] *)

Module Server.
Import Js.

Section WithEngine.
Context {engine : JsEngine}.

(** A location of the request body: either coordinate may be missing. *)
Record Location : Type := {
  lat : option num;
  lon : option num
}.

(** [location.lat] (or [location.lon]) in a condition. *)
Definition truthy_coord (c : option num) : bool :=
  match c with
  | Some n => Number_truthy n
  | None => false
  end.

(** [${location.lat}]: only evaluated when the coordinate is truthy. *)
Definition coord_toString (c : option num) : jsstring :=
  match c with
  | Some n => Number_toString n
  | None => lit "undefined"
  end.

(** [const formattedDate = date ? new Date(date).toLocaleDateString(...)
    : 'Not available'], for a [date] that is [null]/absent or a string. *)
Definition formattedDate (date : option jsstring) : jsstring :=
  match date with
  | Some d =>
      if truthy_string d then toLocaleDateString d else lit "Not available"
  | None => lit "Not available"
  end.

Definition location_unavailable : jsstring :=
  lit "User's location is not available.".

Definition location_label : jsstring :=
  lit "User's Approximate Location (Latitude, Longitude): ".

(** [let locationInfo = ...; if (location && location.lat && location.lon)
    { locationInfo = ... }]. *)
Definition locationInfo (location : option Location) : jsstring :=
  match location with
  | Some l =>
      if truthy_coord (lat l) && truthy_coord (lon l)
      then location_label ++ coord_toString (lat l) ++ lit ", " ++
           coord_toString (lon l)
      else location_unavailable
  | None => location_unavailable
  end.
End WithEngine.

(** The template literal of [createSystemPrompt], up to [${formattedDate}]
    and after [${locationInfo}]. *)
Definition prompt_intro : jsstring :=
  nl ++
  lit "    You are the " ++
  dquote ++
  lit "AgriShield AI Farming Assistant," ++
  dquote ++
  lit " a specialized AI expert for Indian farmers. Your persona is " ++
  lit "confident, knowledgeable, and highly practical." ++
  nl ++
  nl ++
  lit "    --- IMPORTANT CONTEXT (FOR YOUR USE ONLY) ---" ++
  nl.

Definition date_label : jsstring := lit "    Current Date: ".

Definition prompt_head : jsstring := prompt_intro ++ date_label.

Definition prompt_tail : jsstring :=
  nl ++
  lit "    You MUST use this location and date to provide highly " ++
  lit "relevant, localized, and timely advice." ++
  nl ++
  lit "    ---" ++
  nl ++
  nl ++
  lit "    --- RESPONSE MANDATES ---" ++
  nl ++
  lit "    1.  **PRIVACY RULE:** You MUST NOT repeat the user's " ++
  lit "latitude and longitude coordinates in your response. Refer to " ++
  lit "their location in general terms only (e.g., " ++
  dquote ++
  lit "in your area," ++
  dquote ++
  lit " " ++
  dquote ++
  lit "for your region," ++
  dquote ++
  lit " " ++
  dquote ++
  lit "given your local conditions" ++
  dquote ++
  lit ")." ++
  nl ++
  lit "    2.  **Be Specific and Actionable:** When asked for a " ++
  lit "recommendation, you MUST provide a list of specific, named crop " ++
  lit "varieties first. Do NOT give generic advice." ++
  nl ++
  lit "    3.  **Expert First, Disclaimer Second:** Provide your " ++
  lit "expert recommendations directly. Only after giving specific " ++
  lit "advice can you add a concluding sentence suggesting the user " ++
  lit "consult a local extension office." ++
  nl ++
  lit "    4.  **Use Clear Formatting:** Always use bullet points (" ++
  lit "*" ++ lit ") for lists and bold text (" ++ lit "**" ++
  lit ") for important terms." ++
  nl ++
  lit "    5.  **Be Proactive:** End your responses by asking a " ++
  lit "follow-up question to encourage further interaction." ++
  nl ++
  lit "    ---" ++
  nl ++
  lit "     " ++
  nl ++
  lit "    --- CRITICAL LANGUAGE RULE ---" ++
  nl ++
  lit "    You must respond ONLY in the language the user has " ++
  lit "selected. Do not mix languages." ++
  nl ++
  lit "  ".

(** The first response mandate, as the template has it. *)
Definition privacy_rule : jsstring :=
  lit "**PRIVACY RULE:** You MUST NOT repeat the user's " ++
  lit "latitude and longitude coordinates in your response.".

Inductive Role : Type := system | user | assistant.

Record ChatMessage : Type := {
  role : Role;
  content : jsstring
}.

(** The argument of [groq.chat.completions.create]; the temperature is in
    tenths. *)
Record CompletionParams : Type := {
  cp_messages : list ChatMessage;
  cp_model : jsstring;
  cp_temperature_tenths : Z;
  cp_max_tokens : Z
}.

(** What the upstream call yields: [choices[i].message.content], each level
    possibly missing. *)
Record ChoiceMessage : Type := { cm_content : option jsstring }.
Record Choice : Type := { ch_message : option ChoiceMessage }.
Record ChatCompletion : Type := { choices : list Choice }.

Inductive UpstreamResult : Type :=
| Resolved (completion : ChatCompletion)
| Rejected (error_message : jsstring).

Inductive ResponseBody : Type :=
| BodyResponse (response : jsstring)
| BodyError (error details : jsstring).

Record HttpResponse : Type := {
  status : Z;
  body : ResponseBody
}.

(** What the handler does besides answering. *)
Inductive Effect : Type :=
| UpstreamCall (params : CompletionParams)
| ConsoleError (label error_message : jsstring).

(** How a block of statements ends: normally, or by throwing an [Error]
    with the given [message]. *)
Inductive Completion (A : Type) : Type :=
| Normal (a : A)
| Throw (error_message : jsstring).
Arguments Normal {A} a.
Arguments Throw {A} error_message.

Section WithEngine.
Context {engine : JsEngine}.

Definition createSystemPrompt
    (location : option Location) (date : option jsstring) : jsstring :=
  prompt_head ++ formattedDate date ++ nl ++
  lit "    " ++ locationInfo location ++ prompt_tail.

(** The body of a request to [POST /api/chat]. *)
Record ChatRequest : Type := {
  message : jsstring;
  language : jsstring;
  location : option Location;
  date : option jsstring
}.

(** [const messages = [ ... ]]. *)
Definition messages (req : ChatRequest) : list ChatMessage :=
  let dynamicSystemPrompt := createSystemPrompt (location req) (date req) in
  [ {| role := system; content := dynamicSystemPrompt |};
    {| role := user;
       content := lit "I am an Indian Farmer. My preferred language is: "
                  ++ language req ++ lit "." |};
    {| role := assistant;
       content := lit "Namaste! I am ready to help you in "
                  ++ language req ++ lit "." |};
    {| role := user; content := message req |} ].

Definition completion_params (req : ChatRequest) : CompletionParams :=
  {| cp_messages := messages req;
     cp_model := lit "llama-3.3-70b-versatile";
     cp_temperature_tenths := 7;
     cp_max_tokens := 1000 |}.

(** [completion.choices[0]?.message?.content || "No response generated"]. *)
Definition response_text (completion : ChatCompletion) : jsstring :=
  match choices completion with
  | {| ch_message := Some {| cm_content := Some c |} |} :: _ =>
      if truthy_string c then c else lit "No response generated"
  | _ => lit "No response generated"
  end.

(** The [try] block of the handler: the response it sends, or the
    exception of the awaited upstream call, with what it did in order.
    [groq] is the upstream call. *)
Definition try_block
    (groq : CompletionParams -> UpstreamResult) (req : ChatRequest)
  : Completion HttpResponse * list Effect :=
  let params := completion_params req in
  match groq params with
  | Resolved completion =>
      let text := response_text completion in
      (Normal {| status := 200; body := BodyResponse text |},
       [UpstreamCall params])
  | Rejected m => (Throw m, [UpstreamCall params])
  end.

(** The handler of [POST /api/chat]: [try { ... } catch (error) { ... }]. *)
Definition post_api_chat
    (groq : CompletionParams -> UpstreamResult) (req : ChatRequest)
  : Completion HttpResponse * list Effect :=
  let '(r, effects) := try_block groq req in
  match r with
  | Normal response => (Normal response, effects)
  | Throw m =>
      (Normal {| status := 500;
                 body := BodyError (lit "Failed to get response from AI") m |},
       effects ++ [ConsoleError (lit "Error with Groq API:") m])
  end.

Definition upstream_calls (effects : list Effect) : list CompletionParams :=
  flat_map (fun e => match e with
                     | UpstreamCall p => [p]
                     | ConsoleError _ _ => []
                     end) effects.
End WithEngine.

End Server.

(* ================================================================= *)
(** ** The client: [src/components/chat/ChatWindow.tsx] *)

Module Client.
Import Js.

Inductive AttachmentType : Type := image | document.

(** A browser [File]: its name, its MIME type and its content. *)
Record File : Type := {
  name : jsstring;
  mime : jsstring;
  bytes : list N
}.

Record AttachedFile : Type := {
  file : File;
  preview : option jsstring;
  type : AttachmentType
}.

Record Message : Type := {
  id : jsstring;
  text : jsstring;
  isBot : bool;
  timestamp : Z;
  attachments : option (list AttachedFile)
}.

Definition SUGGESTED_QUESTIONS : list jsstring :=
  [ lit "Best flood-resistant rice?";
    lit "Will it rain tomorrow?";
    lit "Current Wheat prices?" ].

(** [initialMessages], created at time [now]. *)
Definition initialMessages (now : Z) : list Message :=
  [ {| id := lit "1";
       text := lit "Namaste! I'm your AgriShield AI. I can analyze your soil, "
               ++ lit "predict weather risks, and suggest crops. How can I "
               ++ lit "help your farm today?";
       isBot := true;
       timestamp := now;
       attachments := None |} ].

(** The state of the component: its five [useState] cells. *)
Record State : Type := {
  messages : list Message;
  inputValue : jsstring;
  isTyping : bool;
  language : jsstring;
  attachedFiles : list AttachedFile
}.

Definition initialState (now : Z) : State :=
  {| messages := initialMessages now;
     inputValue := [];
     isTyping := false;
     language := lit "English";
     attachedFiles := [] |}.

(** How the [fetch] of an exchange ends: the promise rejects, or a reply
    arrives with its [ok] flag and, if its body parses, [data.response]. *)
Inductive Exchange : Type :=
| NetworkError
| HttpReply (ok : bool) (json : option jsstring).

Definition fallback_text : jsstring :=
  lit "I'm having trouble connecting to the satellite. "
  ++ lit "Please check your internet connection.".

Section WithLocation.
(** The [location] prop of the component. *)
Variable Loc : Type.
Variable location : Loc.

(** The JSON body of the request to [http://localhost:3001/api/chat]. *)
Record RequestBody : Type := {
  rb_message : jsstring;
  rb_language : jsstring;
  rb_location : Loc;
  rb_date : jsstring
}.

(** [fileNames]: the names of the attachments joined by a comma and a
    space. *)
Definition fileNames (files : list AttachedFile) : jsstring :=
  join (lit ", ") (List.map (fun a => name (file a)) files).

(** [messageText]: the trimmed text, with the file names of the
    attachments for the model. *)
Definition messageText
    (text : jsstring) (files : list AttachedFile) : jsstring :=
  let trimmed := trim text in
  if (0 <? List.length files)%nat then
    trimmed ++
    (if truthy_string trimmed
     then nl ++ lit "[Attached files: " ++ fileNames files ++ lit "]"
     else lit "[Attached files: " ++ fileNames files ++ lit "]")
  else trimmed.

(** [handleSendMessage(text)] up to its [await fetch(...)]: the state after
    the four state updates, and the request issued, if any.  This part runs
    without interruption; [now] is the reading of the clock, taken once
    for the identifier, the timestamp and the date of the request. *)
Definition handleSendMessage
    (now : Z) (st : State) (text : jsstring)
  : State * option RequestBody :=
  if negb (truthy_string (trim text))
     && (List.length (attachedFiles st) =? 0)%nat
  then (st, None)
  else
    let userMessage :=
      {| id := integer_toString now;
         text := trim text;
         isBot := false;
         timestamp := now;
         attachments :=
           if (0 <? List.length (attachedFiles st))%nat
           then Some (attachedFiles st) else None |} in
    ({| messages := messages st ++ [userMessage];
        inputValue := [];
        isTyping := true;
        language := language st;
        attachedFiles := [] |},
     Some {| rb_message := messageText text (attachedFiles st);
             rb_language := language st;
             rb_location := location;
             rb_date := toISOString now |}).

(** The bot message the continuation appends: [botResponse] in the [try]
    block, when the reply is [ok] and its body parses, [errorResponse] in
    the [catch] block otherwise. *)
Definition botMessage (now : Z) (ex : Exchange) : Message :=
  match ex with
  | HttpReply true (Some response) =>
      {| id := integer_toString now ++ lit "-bot";
         text := response;
         isBot := true;
         timestamp := now;
         attachments := None |}
  | _ =>
      {| id := integer_toString now ++ lit "-error";
         text := fallback_text;
         isBot := true;
         timestamp := now;
         attachments := None |}
  end.

(** [handleSendMessage] after its [await]: [try], [catch] and [finally]. *)
Definition handleSendMessage_settle
    (now : Z) (st : State) (ex : Exchange) : State :=
  {| messages := messages st ++ [botMessage now ex];
     inputValue := inputValue st;
     isTyping := false;
     language := language st;
     attachedFiles := attachedFiles st |}.

(** The [disabled] attribute of the send button. *)
Definition sendDisabled (st : State) : bool :=
  negb (truthy_string (trim (inputValue st)))
  && (List.length (attachedFiles st) =? 0)%nat
  || isTyping st.

(** [onClick] of the send button; a disabled button fires no click. *)
Definition Button_onClick (now : Z) (st : State)
  : State * option RequestBody :=
  if sendDisabled st then (st, None)
  else handleSendMessage now st (inputValue st).

(** [onKeyDown] of the input. *)
Definition Input_onKeyDown
    (now : Z) (st : State) (key : jsstring) (shiftKey : bool)
  : State * option RequestBody :=
  if jsstring_eqb key (lit "Enter") && negb shiftKey
  then handleSendMessage now st (inputValue st)
  else (st, None).

(** The suggested questions are rendered only under this condition. *)
Definition suggestionsShown (st : State) : bool :=
  (List.length (messages st) <=? 2)%nat && negb (isTyping st).

(** [onClick] of the [i]-th suggested question. *)
Definition Suggested_onClick (now : Z) (st : State) (i : nat)
  : State * option RequestBody :=
  if suggestionsShown st then
    match nth_error SUGGESTED_QUESTIONS i with
    | Some q => handleSendMessage now st q
    | None => (st, None)
    end
  else (st, None).

(** [setAttachedFiles(prev => [...prev, ...newAttachments])] and
    [removeAttachment(index)]. *)
Definition addAttachments (st : State) (new : list AttachedFile) : State :=
  {| messages := messages st;
     inputValue := inputValue st;
     isTyping := isTyping st;
     language := language st;
     attachedFiles := attachedFiles st ++ new |}.

Fixpoint remove_nth {A} (i : nat) (l : list A) : list A :=
  match l, i with
  | [], _ => []
  | _ :: l', O => l'
  | x :: l', S i' => x :: remove_nth i' l'
  end.

Definition removeAttachment (st : State) (index : nat) : State :=
  {| messages := messages st;
     inputValue := inputValue st;
     isTyping := isTyping st;
     language := language st;
     attachedFiles := remove_nth index (attachedFiles st) |}.

Definition setInputValue (st : State) (v : jsstring) : State :=
  {| messages := messages st;
     inputValue := v;
     isTyping := isTyping st;
     language := language st;
     attachedFiles := attachedFiles st |}.

Definition setLanguage (st : State) (l : jsstring) : State :=
  {| messages := messages st;
     inputValue := inputValue st;
     isTyping := isTyping st;
     language := l;
     attachedFiles := attachedFiles st |}.

(** The component with its environment: the requests sent so far, oldest
    first, and how many of them have not settled yet. *)
Record World : Type := {
  ui : State;
  outbox : list RequestBody;
  inflight : nat
}.

Definition initialWorld (now : Z) : World :=
  {| ui := initialState now; outbox := []; inflight := 0 |}.

(** What can happen to the component, each at a reading of the clock. *)
Inductive Event : Type :=
| ClickSend (now : Z)
| KeyDown (now : Z) (key : jsstring) (shiftKey : bool)
| ClickSuggested (now : Z) (i : nat)
| ChangeInput (v : jsstring)
| SelectLanguage (l : jsstring)
| SelectFiles (new : list AttachedFile)
| RemoveAttachment (index : nat)
| Settle (now : Z) (ex : Exchange).

Definition after_send (w : World) (r : State * option RequestBody) : World :=
  match snd r with
  | Some req =>
      {| ui := fst r; outbox := outbox w ++ [req];
         inflight := S (inflight w) |}
  | None => {| ui := fst r; outbox := outbox w; inflight := inflight w |}
  end.

Definition with_ui (w : World) (st : State) : World :=
  {| ui := st; outbox := outbox w; inflight := inflight w |}.

(** One event.  An exchange can only settle while one is in flight. *)
Definition step (w : World) (e : Event) : World :=
  match e with
  | ClickSend now => after_send w (Button_onClick now (ui w))
  | KeyDown now key shiftKey =>
      after_send w (Input_onKeyDown now (ui w) key shiftKey)
  | ClickSuggested now i => after_send w (Suggested_onClick now (ui w) i)
  | ChangeInput v => with_ui w (setInputValue (ui w) v)
  | SelectLanguage l => with_ui w (setLanguage (ui w) l)
  | SelectFiles new => with_ui w (addAttachments (ui w) new)
  | RemoveAttachment index => with_ui w (removeAttachment (ui w) index)
  | Settle now ex =>
      match inflight w with
      | O => w
      | S n =>
          {| ui := handleSendMessage_settle now (ui w) ex;
             outbox := outbox w;
             inflight := n |}
      end
  end.

Definition run (w : World) (events : list Event) : World :=
  fold_left step events w.

(** The transcript [new] is the transcript [old] with messages appended. *)
Definition extends (old new : list Message) : Prop :=
  exists more, new = old ++ more.

(** Every request sent has put one user message into the transcript, and
    every exchange settled one bot message. *)
Definition balance (w w' : World) : Prop :=
  (List.length (messages (ui w')) + inflight w'
   + 2 * List.length (outbox w)
   = List.length (messages (ui w)) + inflight w
     + 2 * List.length (outbox w'))%nat.
End WithLocation.

End Client.

(* ================================================================= *)
(** ** Concrete hosts

    Engines on which the definitions can be evaluated.  Coordinates are
    integer Numbers, strings outside the Date Time String Format do not
    parse, and the host is in one fixed time zone. *)

Module Hosts.
Import Js.

Definition host (tza : Z) : JsEngine :=
  {| num := Z;
     Number_toString := integer_toString;
     Number_truthy := fun z => negb (z =? 0)%Z;
     Date_parse_fallback := fun _ => None;
     LocalTZA := fun _ => tza |}.

(** UTC, India Standard Time (UTC+05:30) and US Eastern Daylight Time
    (UTC-04:00). *)
Definition utc : JsEngine := host 0.
Definition ist : JsEngine := host 19800000.
Definition edt : JsEngine := host (-14400000).

End Hosts.

(* ================================================================= *)
(** ** Two rules as the specification words them *)

Module AsSpecified.
Import Js Server.

(** The privacy rule as the specification words it for the prompt: neither
    coordinate of a present location occurs in the composed prompt. *)
Definition prompt_hides_coordinates {engine : JsEngine}
    (l : Location) (date : option jsstring) : Prop :=
  forall la lo, lat l = Some la -> lon l = Some lo ->
    ~ Substring (Number_toString la) (createSystemPrompt (Some l) date) /\
    ~ Substring (Number_toString lo) (createSystemPrompt (Some l) date).

(** The rule of the specification for a date string that does not parse:
    it is rendered like an absent date. *)
Definition unparseable_date_not_available {engine : JsEngine}
    (s : jsstring) : Prop :=
  Date_parse s = None -> formattedDate (Some s) = lit "Not available".

End AsSpecified.

(* ================================================================= *)
(** ** States of the client used as examples *)

Module Scenarios.
Import Js Client.

(** A page that has the location of the user. *)
Definition here : option (Z * Z) := Some (13, 80)%Z.

(** One exchange is in flight and the user has typed a second question. *)
Definition typing_second_question : State :=
  setInputValue
    (fst (handleSendMessage here 1000 (initialState 0)
            (lit "Will it rain tomorrow?")))
    (lit "Current Wheat prices?").

Definition soil_report : AttachedFile :=
  {| file := {| name := lit "soil.pdf";
                mime := lit "application/pdf";
                bytes := [37; 80; 68; 70]%N |};
     preview := None;
     type := document |}.

Definition leaf_photo : AttachedFile :=
  {| file := {| name := lit "leaf.png";
                mime := lit "image/png";
                bytes := [137; 80; 78; 71]%N |};
     preview := Some (lit "data:image/png;base64,iVBORw0KGgo=");
     type := image |}.

End Scenarios.

(* ================================================================= *)
(** ** Printed decimals, digit by digit *)

Module DecimalDigits.

(** The number a sequence of decimal digits denotes, most significant digit
    first, continuing from [acc]. *)
Fixpoint uint_value (d : Decimal.uint) (acc : Z) : Z :=
  match d with
  | Decimal.Nil => acc
  | Decimal.D0 d => uint_value d (10 * acc)
  | Decimal.D1 d => uint_value d (10 * acc + 1)
  | Decimal.D2 d => uint_value d (10 * acc + 2)
  | Decimal.D3 d => uint_value d (10 * acc + 3)
  | Decimal.D4 d => uint_value d (10 * acc + 4)
  | Decimal.D5 d => uint_value d (10 * acc + 5)
  | Decimal.D6 d => uint_value d (10 * acc + 6)
  | Decimal.D7 d => uint_value d (10 * acc + 7)
  | Decimal.D8 d => uint_value d (10 * acc + 8)
  | Decimal.D9 d => uint_value d (10 * acc + 9)
  end.

End DecimalDigits.

(* ================================================================= *)
(** ** The client: attachments, languages and what a run keeps true *)

Module ChatWindow.
Import Js Client.

(** [file.type.startsWith('image/')] decides the [type] of an attachment. *)
Definition attachmentType (f : File) : AttachmentType :=
  if startsWith (mime f) (lit "image/") then image else document.

(** The [attachment] object [handleFileSelect] builds for a file; its
    preview is filled in later, when the file has been read. *)
Definition newAttachment (f : File) : AttachedFile :=
  {| file := f; preview := None; type := attachmentType f |}.

(** [handleFileSelect(e)] up to the reading of the previews: [files] is
    [e.target.files], [None] when it is [null]. *)
Definition handleFileSelect (st : State) (files : option (list File)) : State :=
  match files with
  | None => st
  | Some fs => addAttachments st (List.map newAttachment fs)
  end.

(** The labels of the language buttons and the language each one selects. *)
Definition languageButtons : list jsstring := [lit "En"; lit "Hi"; lit "Ta"].

Definition fullLang (langShort : jsstring) : jsstring :=
  if jsstring_eqb langShort (lit "En") then lit "English"
  else if jsstring_eqb langShort (lit "Hi") then lit "Hindi"
  else lit "Tamil".

(** An event the rendered component can produce: a language is selected
    through one of the three buttons. *)
Definition rendered (e : Event) : Prop :=
  match e with
  | SelectLanguage l => exists b, In b languageButtons /\ l = fullLang b
  | _ => True
  end.

Definition offeredLanguage (l : jsstring) : Prop :=
  l = lit "English" \/ l = lit "Hindi" \/ l = lit "Tamil".

(** An event that is not an Enter key in the input; a key with Shift held,
    or another key, is no Enter key. *)
Definition no_enter (e : Event) : Prop :=
  match e with
  | KeyDown _ key shiftKey =>
      jsstring_eqb key (lit "Enter") && negb shiftKey = false
  | _ => True
  end.

(** At most one exchange is in flight, and the composing indicator is on
    exactly while it is. *)
Definition one_at_a_time {Loc : Type} (w : World Loc) : Prop :=
  (inflight w <= 1)%nat /\
  (isTyping (ui w) = true <-> inflight w = 1%nat).

(** What every run from the initial state keeps true of the component and
    its exchanges. *)
Definition coherent {Loc : Type} (w : World Loc) : Prop :=
  (inflight w <= List.length (outbox w))%nat /\
  (List.length (messages (ui w)) + inflight w
   = 1 + 2 * List.length (outbox w))%nat /\
  (isTyping (ui w) = true -> (1 <= inflight w)%nat) /\
  (inflight w = List.length (outbox w) ->
   (1 <= List.length (outbox w))%nat -> isTyping (ui w) = true).

Section WithLocation.
Variable Loc : Type.
Variable location : Loc.

(** What a control that sends does: nothing, or [handleSendMessage]. *)
Definition sends (st : State) (now : Z) (r : State * option (RequestBody Loc))
  : Prop :=
  r = (st, None) \/ exists text, r = handleSendMessage location now st text.

(** The selected language and the language of every request sent are among
    the three the buttons offer. *)
Definition speaks_offered (w : World Loc) : Prop :=
  offeredLanguage (language (ui w)) /\
  Forall (fun r => offeredLanguage (rb_language r)) (outbox w).
End WithLocation.

End ChatWindow.

(* ================================================================= *)
(** ** The page: [src/pages/ChatPage.tsx] *)

Module ChatPage.
Import Js.

Section WithEngine.
Context {engine : JsEngine}.
(** The forecast object of the weather service. *)
Variable Data : Type.

(** What [navigator.geolocation] does: it is missing, the position is
    refused, or a position is reported. *)
Inductive Geolocation : Type :=
| Unsupported
| Denied
| Located (latitude longitude : num).

(** How the request for the forecast ends: [fetch] rejects with an error,
    or a response arrives with its [ok] flag and its body, parsed or
    failing to parse with an error. *)
Inductive WeatherReply : Type :=
| WeatherRejected (error_message : jsstring)
| WeatherResponse (ok : bool) (json : Data + jsstring).

(** The four [useState] cells of the page. *)
Record PageState : Type := {
  location : option Server.Location;
  weatherData : option Data;
  isLoadingWeather : bool;
  weatherError : option jsstring
}.

Definition initialPage : PageState :=
  {| location := None;
     weatherData := None;
     isLoadingWeather := true;
     weatherError := None |}.

Inductive PageEffect : Type :=
| Fetch (url : jsstring)
| ConsoleWarn (text : jsstring).

Definition API_URL (API_KEY : jsstring) (latitude longitude : num) : jsstring :=
  lit "https://api.weatherapi.com/v1/forecast.json?key=" ++ API_KEY ++
  lit "&q=" ++ Number_toString latitude ++ lit "," ++
  Number_toString longitude ++ lit "&days=5&alerts=yes".

Definition setWeatherError (st : PageState) (m : jsstring) : PageState :=
  {| location := location st;
     weatherData := weatherData st;
     isLoadingWeather := isLoadingWeather st;
     weatherError := Some m |}.

Definition setWeatherData (st : PageState) (d : Data) : PageState :=
  {| location := location st;
     weatherData := Some d;
     isLoadingWeather := isLoadingWeather st;
     weatherError := weatherError st |}.

Definition setIsLoadingWeather (st : PageState) (b : bool) : PageState :=
  {| location := location st;
     weatherData := weatherData st;
     isLoadingWeather := b;
     weatherError := weatherError st |}.

Definition setLocation (st : PageState) (l : Server.Location) : PageState :=
  {| location := Some l;
     weatherData := weatherData st;
     isLoadingWeather := isLoadingWeather st;
     weatherError := weatherError st |}.

(** [fetchWeatherData()], run to its end.  [API_KEY] is
    [import.meta.env.VITE_WEATHERAPI_KEY], [None] when it is undefined;
    [fetch] is the weather service. *)
Definition fetchWeatherData
    (API_KEY : option jsstring) (fetch : jsstring -> WeatherReply)
    (latitude longitude : num) (st : PageState)
  : PageState * list PageEffect :=
  match API_KEY with
  | Some key =>
      if truthy_string key then
        let url := API_URL key latitude longitude in
        let st' :=
          match fetch url with
          | WeatherResponse true (inl data) => setWeatherData st data
          | WeatherResponse true (inr m) => setWeatherError st m
          | WeatherResponse false _ =>
              setWeatherError st (lit "Could not fetch weather data.")
          | WeatherRejected m => setWeatherError st m
          end in
        (setIsLoadingWeather st' false, [Fetch url])
      else (setIsLoadingWeather st false,
            [ConsoleWarn (lit "Weather API Key is missing")])
  | None => (setIsLoadingWeather st false,
             [ConsoleWarn (lit "Weather API Key is missing")])
  end.

(** The effect of the page, run to its end from the initial state. *)
Definition useEffect
    (geolocation : Geolocation) (API_KEY : option jsstring)
    (fetch : jsstring -> WeatherReply)
  : PageState * list PageEffect :=
  match geolocation with
  | Unsupported =>
      (setIsLoadingWeather
         (setWeatherError initialPage
            (lit "Geolocation is not supported by your browser.")) false,
       [])
  | Located latitude longitude =>
      let currentLocation :=
        {| Server.lat := Some latitude; Server.lon := Some longitude |} in
      fetchWeatherData API_KEY fetch latitude longitude
        (setLocation initialPage currentLocation)
  | Denied =>
      (setIsLoadingWeather
         (setWeatherError initialPage (lit "Location access denied.")) false,
       [])
  end.

Definition fetched (effects : list PageEffect) : list jsstring :=
  flat_map (fun e => match e with
                     | Fetch url => [url]
                     | ConsoleWarn _ => []
                     end) effects.
End WithEngine.

End ChatPage.

(* ================================================================= *)
(** ** Client and backend together *)

Module Wire.
Import Js.

Section WithEngine.
Context {engine : JsEngine}.

(** The body the backend reads from a request of the client:
    [JSON.stringify] on one side and [express.json()] on the other keep
    strings, finite numbers and [null] as they are. *)
Definition received
    (rb : Client.RequestBody (option Server.Location)) : Server.ChatRequest :=
  {| Server.message := Client.rb_message rb;
     Server.language := Client.rb_language rb;
     Server.location := Client.rb_location rb;
     Server.date := Some (Client.rb_date rb) |}.

(** The exchange the client sees for a response of the backend:
    [apiResponse.ok] holds for the statuses 200 to 299, and [data.response]
    is the [response] field of the body. *)
Definition reply (r : Server.HttpResponse) : Client.Exchange :=
  Client.HttpReply
    ((200 <=? Server.status r)%Z && (Server.status r <=? 299)%Z)
    (match Server.body r with
     | Server.BodyResponse text => Some text
     | Server.BodyError _ _ => None
     end).

(** One turn from the send to the bot message: the client sends [text] at
    [now], the backend answers with the upstream model [groq], and the
    client settles at [now'].  [None] when nothing is sent. *)
Definition turn
    (groq : Server.CompletionParams -> Server.UpstreamResult)
    (location : option Server.Location)
    (now now' : Z) (st : Client.State) (text : jsstring)
  : option Client.State :=
  match Client.handleSendMessage location now st text with
  | (st1, Some rb) =>
      match fst (Server.post_api_chat groq (received rb)) with
      | Server.Normal r =>
          Some (Client.handleSendMessage_settle now' st1 (reply r))
      | Server.Throw _ =>
          Some (Client.handleSendMessage_settle now' st1 Client.NetworkError)
      end
  | (_, None) => None
  end.
End WithEngine.

End Wire.

(* ================================================================= *)
(** ** Properties of strings *)

Module JsFacts.
Import Js.

Ltac eval_closed_leb :=
  repeat match goal with
         | |- context [Z.leb ?a ?b] =>
             let v := eval vm_compute in (Z.leb a b) in
             change (Z.leb a b) with v
         end.

Lemma startsWith_prefix (s p : jsstring) :
  startsWith s p = true <-> exists post, s = p ++ post.
Proof.
  revert s; induction p as [|c p IH]; intros [|d s]; cbn [startsWith].
  - split; [intros _; now exists [] | reflexivity].
  - split; [intros _; now exists (d :: s) | reflexivity].
  - split; [discriminate | intros [post H]; discriminate].
  - rewrite andb_true_iff, N.eqb_eq, IH. split.
    + intros [-> [post ->]]. now exists post.
    + intros [post H]. injection H as -> ->.
      split; [reflexivity | now exists post].
Qed.

Lemma includes_Substring (s p : jsstring) :
  includes s p = true <-> Substring p s.
Proof.
  unfold Substring. induction s as [|d s IH].
  - cbn [includes]. rewrite orb_false_r, startsWith_prefix. split.
    + intros [post H]. now exists [], post.
    + intros [pre [post H]]. destruct pre; [now exists post | discriminate].
  - cbn [includes]. rewrite orb_true_iff, startsWith_prefix, IH. split.
    + intros [[post H] | [pre [post H]]].
      * now exists [], post.
      * exists (d :: pre), post. now rewrite H.
    + intros [[|e pre] [post H]].
      * left. now exists post.
      * right. injection H as _ H. now exists pre, post.
Qed.

Lemma Substring_refl (p : jsstring) : Substring p p.
Proof. exists [], []. now rewrite app_nil_r. Qed.

Lemma Substring_app_l (p s a : jsstring) :
  Substring p s -> Substring p (a ++ s).
Proof.
  intros [pre [post ->]]. exists (a ++ pre), post. now rewrite app_assoc.
Qed.

Lemma Substring_app_r (p s b : jsstring) :
  Substring p s -> Substring p (s ++ b).
Proof.
  intros [pre [post ->]]. exists pre, (post ++ b).
  now rewrite <- !app_assoc.
Qed.

Lemma Substring_trans (p q s : jsstring) :
  Substring p q -> Substring q s -> Substring p s.
Proof.
  intros [a [b ->]] H. destruct H as [pre [post ->]].
  exists (pre ++ a), (b ++ post). now rewrite <- !app_assoc.
Qed.

Lemma truthy_string_nonempty (s : jsstring) :
  truthy_string s = true <-> s <> [].
Proof. destruct s; simpl; split; congruence. Qed.

(* ----------------------------------------------------------------- *)
(** *** The calendar *)

Local Open Scope Z_scope.

Lemma isLeapYear_spec (y : Z) :
  isLeapYear y = true <-> y mod 4 = 0 /\ (y mod 100 <> 0 \/ y mod 400 = 0).
Proof.
  unfold isLeapYear.
  rewrite andb_true_iff, orb_true_iff, negb_true_iff, !Z.eqb_eq, Z.eqb_neq.
  tauto.
Qed.

Lemma WeekDay_range (t : Z) : 0 <= WeekDay t <= 6.
Proof.
  unfold WeekDay. pose proof (Z.mod_pos_bound (Day t + 4) 7). lia.
Qed.

(** Month and day of the month of any day number are in range. *)
Lemma civil_from_days_range (days : Z) :
  1 <= snd (fst (civil_from_days days)) <= 12 /\
  1 <= snd (civil_from_days days) <= 31.
Proof.
  unfold civil_from_days. cbv zeta. cbn [fst snd].
  set (doe := (days + 719468) mod 146097).
  assert (0 <= doe < 146097) by (apply Z.mod_pos_bound; lia).
  clearbody doe.
  set (yoe := (doe - doe / 1460 + doe / 36524 - doe / 146096) / 365).
  set (doy := doe - (365 * yoe + yoe / 4 - yoe / 100)).
  assert (0 <= doy <= 365) by (subst doy yoe; Z.div_mod_to_equations; lia).
  clearbody doy.
  set (mp := (5 * doy + 2) / 153).
  destruct (Z.ltb_spec mp 10); subst mp; Z.div_mod_to_equations; lia.
Qed.

(** The year of the era is recovered from the day of the era. *)
Lemma yoe_recover (yoe doy : Z) :
  0 <= yoe < 400 -> 0 <= doy <= 365 ->
  (doy = 365 ->
   (yoe + 1) mod 4 = 0 /\ ((yoe + 1) mod 100 <> 0 \/ yoe = 399)) ->
  let doe := yoe * 365 + yoe / 4 - yoe / 100 + doy in
  0 <= doe < 146097 /\
  (doe - doe / 1460 + doe / 36524 - doe / 146096) / 365 = yoe.
Proof.
  intros Hy Hd Hl doe. subst doe.
  Z.div_mod_to_equations; lia.
Qed.

(** [civil_from_days] inverts [MakeDay] on every date of the calendar. *)
Lemma civil_roundtrip (y m d : Z) :
  1 <= m <= 12 -> 1 <= d <= DaysInMonth y m ->
  civil_from_days (MakeDay y m d) = (y, m, d).
Proof.
  intros Hm Hd.
  unfold MakeDay, civil_from_days. cbv zeta.
  set (y' := if m <=? 2 then y - 1 else y).
  set (mp := if m <=? 2 then m + 9 else m - 3).
  set (doy := (153 * mp + 2) / 5 + d - 1).
  set (yoe := y' mod 400).
  assert (Hyoe : 0 <= yoe < 400) by (apply Z.mod_pos_bound; lia).
  assert (Hdoy : 0 <= doy <= 365 /\
                 (doy = 365 -> (yoe + 1) mod 4 = 0 /\
                               ((yoe + 1) mod 100 <> 0 \/ yoe = 399)) /\
                 (5 * doy + 2) / 153 = mp /\
                 doy - (153 * mp + 2) / 5 + 1 = d).
  { unfold DaysInMonth in Hd.
    assert (Hleap : isLeapYear y = true -> m <= 2 ->
              (yoe + 1) mod 4 = 0 /\ ((yoe + 1) mod 100 <> 0 \/ yoe = 399)).
    { intros Hl Hm2. apply isLeapYear_spec in Hl. subst yoe y'.
      destruct (Z.leb_spec m 2); [|lia].
      Z.div_mod_to_equations; lia. }
    assert (Hcases : m = 1 \/ m = 2 \/ m = 3 \/ m = 4 \/ m = 5 \/ m = 6 \/
                     m = 7 \/ m = 8 \/ m = 9 \/ m = 10 \/ m = 11 \/ m = 12)
      by lia.
    subst doy mp.
    destruct Hcases as [-> | [-> | [-> | [-> | [-> | [-> | [-> | [-> | [-> |
                        [-> | [-> | ->]]]]]]]]]]];
      simpl (_ =? _) in Hd; eval_closed_leb; cbv iota in Hd |- *;
      cbn [orb] in Hd;
      try (repeat split; try lia; Z.div_mod_to_equations; lia).
    revert Hd Hleap. destruct (isLeapYear y); intros Hd Hleap.
    - specialize (Hleap eq_refl ltac:(lia)).
      repeat split; try lia; Z.div_mod_to_equations; lia.
    - repeat split; try lia; Z.div_mod_to_equations; lia. }
  destruct Hdoy as [Hd1 [Hd2 [Hmp Hdd]]].
  clearbody doy.
  destruct (yoe_recover Hyoe Hd1 Hd2) as [Hdoe Hrec].
  set (doe := yoe * 365 + yoe / 4 - yoe / 100 + doy) in *.
  replace (y' / 400 * 146097 + doe - 719468 + 719468)
    with (doe + (y' / 400) * 146097) by lia.
  rewrite Z.div_add, Z.mod_add by lia.
  rewrite (Z.mod_small doe 146097), (Z.div_small doe 146097), Z.add_0_l
    by lia.
  rewrite Hrec.
  replace (doe - (365 * yoe + yoe / 4 - yoe / 100)) with doy
    by (subst doe; lia).
  rewrite Hmp, Hdd.
  assert (Hy : yoe + y' / 400 * 400 = y').
  { subst yoe. pose proof (Z.div_mod y' 400). lia. }
  rewrite Hy. subst mp y'.
  destruct (Z.leb_spec m 2).
  - destruct (Z.ltb_spec (m + 9) 10); [lia|].
    replace (m + 9 - 9) with m by lia.
    destruct (Z.leb_spec m 2); [|lia].
    now replace (y - 1 + 1) with y by lia.
  - destruct (Z.ltb_spec (m - 3) 10); [|lia].
    replace (m - 3 + 3) with m by lia.
    destruct (Z.leb_spec m 2); [lia|]. reflexivity.
Qed.

(** A time within the same day has the same day number. *)
Lemma Day_within (day tod : Z) :
  0 <= tod < msPerDay -> Day (day * msPerDay + tod) = day.
Proof.
  intros H. unfold Day, msPerDay in *.
  rewrite Z.add_comm, Z.div_add by lia. rewrite Z.div_small; lia.
Qed.

(* ----------------------------------------------------------------- *)
(** *** The Date Time String Format *)

Lemma digit_range (c : N) (d : Z) : digit c = Some d -> 0 <= d <= 9.
Proof.
  unfold digit.
  destruct (N.leb_spec 48 c); cbn [andb]; [|discriminate].
  destruct (N.leb_spec c 57); [|discriminate].
  intros [= <-]. lia.
Qed.

Lemma digits_bounds (k : nat) : forall (s : jsstring) (acc v : Z) s',
  digits k s acc = Some (v, s') ->
  acc * 10 ^ Z.of_nat k <= v < (acc + 1) * 10 ^ Z.of_nat k.
Proof.
  induction k as [|k IH]; intros s acc v s' H.
  - cbn in H. injection H as <- _. cbn. lia.
  - cbn [digits] in H. destruct s as [|c s]; [discriminate|].
    destruct (digit c) as [d|] eqn:Hd; [|discriminate].
    apply digit_range in Hd. apply IH in H.
    rewrite Nat2Z.inj_succ, Z.pow_succ_r by lia.
    assert (0 < 10 ^ Z.of_nat k) by (apply Z.pow_pos_nonneg; lia).
    nia.
Qed.

Lemma obind_Some {A B} (o : option A) (k : A -> option B) (b : B) :
  obind o k = Some b -> exists a, o = Some a /\ k a = Some b.
Proof. destruct o as [a|]; [now exists a | discriminate]. Qed.

Lemma parse_time_range (s : jsstring) (t : Z) :
  parse_time s = Some t -> 0 <= t < msPerDay.
Proof.
  unfold parse_time. intros H.
  apply obind_Some in H as [[h s1] [Hh H]]. apply digits_bounds in Hh.
  apply obind_Some in H as [s2 [_ H]].
  apply obind_Some in H as [[mi s3] [Hmi H]]. apply digits_bounds in Hmi.
  apply obind_Some in H as [s4 [_ H]].
  apply obind_Some in H as [[sec s5] [Hsec H]]. apply digits_bounds in Hsec.
  destruct ((h <=? 23) && (mi <=? 59) && (sec <=? 59)) eqn:Hr;
    [|discriminate].
  rewrite !andb_true_iff, !Z.leb_le in Hr.
  change (10 ^ Z.of_nat 2) with 100 in *.
  assert (Hgoal : forall ms, 0 <= ms < 1000 ->
                             0 <= MakeTime h mi sec ms < msPerDay)
    by (intros ms Hms; unfold MakeTime, msPerDay; lia).
  destruct s5 as [|c s5]; [discriminate|].
  destruct c as [|p]; [discriminate|].
  destruct (Pos.eq_dec p 90) as [-> | Hp90].
  - destruct s5; [|discriminate]. injection H as <-. apply Hgoal. lia.
  - destruct (Pos.eq_dec p 46) as [-> | Hp46].
    + apply obind_Some in H as [[ms s6] [Hms H]]. apply digits_bounds in Hms.
      destruct s6 as [|c6 s6]; [discriminate|].
      destruct c6 as [|p6]; [discriminate|].
      destruct (Pos.eq_dec p6 90) as [-> | Hp6].
      * destruct s6; [|discriminate]. injection H as <-.
        change (10 ^ Z.of_nat 3) with 1000 in Hms. apply Hgoal. lia.
      * exfalso. clear -H Hp6.
        repeat (destruct p6 as [p6|p6|]; try discriminate; try congruence).
    + exfalso. clear -H Hp90 Hp46.
      repeat (destruct p as [p|p|]; try discriminate; try congruence).
Qed.

Lemma iso_date_valid (s : jsstring) (y m d : Z) (rest : jsstring) :
  iso_date s = Some (y, m, d, rest) ->
  0 <= y <= 9999 /\ 1 <= m <= 12 /\ 1 <= d <= DaysInMonth y m.
Proof.
  unfold iso_date. intros H.
  apply obind_Some in H as [[y0 s1] [Hy H]]. apply digits_bounds in Hy.
  apply obind_Some in H as [s2 [_ H]].
  apply obind_Some in H as [[m0 s3] [_ H]].
  apply obind_Some in H as [s4 [_ H]].
  apply obind_Some in H as [[d0 s5] [_ H]].
  destruct ((1 <=? m0) && (m0 <=? 12) && (1 <=? d0)
            && (d0 <=? DaysInMonth y0 m0)) eqn:Hr; [|discriminate].
  rewrite !andb_true_iff, !Z.leb_le in Hr.
  injection H as <- <- <- _.
  change (10 ^ Z.of_nat 4) with 10000 in Hy. lia.
Qed.

(** A string in the Date Time String Format denotes an instant of the day
    its date part names. *)
Lemma iso_parse_fields (s : jsstring) (t : Z) :
  iso_parse s = Some t ->
  exists y m d rest,
    iso_date s = Some (y, m, d, rest) /\
    civil_from_days (Day t) = (y, m, d).
Proof.
  unfold iso_parse. intros H.
  apply obind_Some in H as [[[[y m] d] rest] [Hdate H]].
  exists y, m, d, rest. split; [exact Hdate|].
  apply iso_date_valid in Hdate as [_ [Hm Hd]].
  cbn beta iota in H.
  assert (Hday : exists tod, t = MakeDay y m d * msPerDay + tod /\
                             0 <= tod < msPerDay).
  { destruct rest as [|c rest].
    - injection H as <-. exists 0. unfold msPerDay. lia.
    - destruct c as [|p]; [discriminate|].
      destruct (Pos.eq_dec p 84) as [-> | Hp].
      + apply obind_Some in H as [tod [Htod H]]. injection H as <-.
        exists tod. split; [reflexivity|]. exact (parse_time_range _ Htod).
      + exfalso. clear -H Hp.
        repeat (destruct p as [p|p|]; try discriminate; try congruence). }
  destruct Hday as [tod [-> Htod]].
  rewrite Day_within by exact Htod.
  now apply civil_roundtrip.
Qed.

Lemma iso_parse_nonempty (s : jsstring) (t : Z) :
  iso_parse s = Some t -> s <> [].
Proof. intros H ->. discriminate. Qed.

End JsFacts.

(* ================================================================= *)
(** ** The backend meets its contract *)

Module ServerSpec.
Import Js JsFacts Server AsSpecified.

Lemma privacy_rule_in_tail : Substring privacy_rule prompt_tail.
Proof. apply includes_Substring. vm_compute. reflexivity. Qed.

Section WithEngine.
Context {engine : JsEngine}.

Lemma locationInfo_in_prompt location date :
  Substring (locationInfo location) (createSystemPrompt location date).
Proof.
  unfold createSystemPrompt.
  exists (prompt_head ++ formattedDate date ++ nl ++ lit "    "), prompt_tail.
  now rewrite <- !app_assoc.
Qed.

Lemma formattedDate_in_prompt location date :
  Substring (date_label ++ formattedDate date ++ nl)
            (createSystemPrompt location date).
Proof.
  unfold createSystemPrompt, prompt_head.
  exists prompt_intro, (lit "    " ++ locationInfo location ++ prompt_tail).
  now rewrite <- !app_assoc.
Qed.

Lemma formattedDate_parsed s t :
  s <> [] -> Date_parse s = Some t ->
  formattedDate (Some s) = longDate_enUS (t + LocalTZA t).
Proof.
  intros Hs Ht. unfold formattedDate, toLocaleDateString.
  apply truthy_string_nonempty in Hs. now rewrite Hs, Ht.
Qed.

Lemma Date_parse_iso s t : iso_parse s = Some t -> Date_parse s = Some t.
Proof. intros H. unfold Date_parse. now rewrite H. Qed.

Lemma locationInfo_present l la lo :
  lat l = Some la -> lon l = Some lo ->
  Number_truthy la = true -> Number_truthy lo = true ->
  locationInfo (Some l) =
    location_label ++ Number_toString la ++ lit ", " ++ Number_toString lo.
Proof.
  intros Hla Hlo Ta To. unfold locationInfo.
  rewrite Hla, Hlo. cbn [truthy_coord coord_toString].
  now rewrite Ta, To.
Qed.
End WithEngine.

Section Claims.
Context {engine : JsEngine}.

(** C1 (as the code has it).  When the location is present and both
    coordinates are truthy, the composed prompt contains the labelled
    line with both coordinates, hence the rendering of the latitude and
    the rendering of the longitude; the same prompt carries the privacy
    rule, which is an instruction to the model about its replies. *)
Theorem createSystemPrompt_embeds_coordinates
    (l : Location) (la lo : num) (date : option jsstring) :
  lat l = Some la -> lon l = Some lo ->
  Number_truthy la = true -> Number_truthy lo = true ->
  Substring (location_label ++ Number_toString la ++ lit ", "
             ++ Number_toString lo)
            (createSystemPrompt (Some l) date) /\
  Substring (Number_toString la) (createSystemPrompt (Some l) date) /\
  Substring (Number_toString lo) (createSystemPrompt (Some l) date) /\
  Substring privacy_rule (createSystemPrompt (Some l) date).
Proof.
  intros Hla Hlo Ta To.
  pose proof (locationInfo_in_prompt (Some l) date) as Hin.
  rewrite (locationInfo_present l Hla Hlo Ta To) in Hin.
  repeat split.
  - exact Hin.
  - eapply Substring_trans; [|exact Hin].
    apply Substring_app_l, Substring_app_r, Substring_refl.
  - eapply Substring_trans; [|exact Hin].
    do 3 apply Substring_app_l. apply Substring_refl.
  - unfold createSystemPrompt.
    do 5 apply Substring_app_l. exact privacy_rule_in_tail.
Qed.

(** C3.  When the upstream call throws an error with message [m], the
    handler completes normally with status 500 and the body
    [{ error: "Failed to get response from AI", details: m }], after
    logging the error; and whatever the upstream call does, no exception
    leaves the handler. *)
Theorem upstream_failure_is_500
    (groq : CompletionParams -> UpstreamResult) (req : ChatRequest)
    (m : jsstring) :
  groq (completion_params req) = Rejected m ->
  post_api_chat groq req =
    (Normal {| status := 500;
               body := BodyError (lit "Failed to get response from AI") m |},
     [UpstreamCall (completion_params req);
      ConsoleError (lit "Error with Groq API:") m]) /\
  (forall groq' req', exists response,
      fst (post_api_chat groq' req') = Normal response).
Proof.
  intros Hg. split.
  - unfold post_api_chat, try_block. now rewrite Hg.
  - intros groq' req'. unfold post_api_chat, try_block.
    destruct (groq' (completion_params req')); eexists; reflexivity.
Qed.

(** C4.  The handler calls the upstream model exactly once, and the
    message list of that call has exactly four entries, in this order: the
    system role with the composed prompt, a user turn declaring the
    selected language, an assistant turn acknowledging readiness in that
    language, and a user turn with the message of the request.  Nothing
    else is in the list. *)
Theorem messages_scaffold
    (groq : CompletionParams -> UpstreamResult) (req : ChatRequest) :
  (exists params,
      upstream_calls (snd (post_api_chat groq req)) = [params] /\
      cp_messages params = messages req) /\
  List.length (messages req) = 4%nat /\
  List.map role (messages req) = [system; user; assistant; user] /\
  List.map content (messages req) =
    [ createSystemPrompt (location req) (date req);
      lit "I am an Indian Farmer. My preferred language is: "
        ++ language req ++ lit ".";
      lit "Namaste! I am ready to help you in " ++ language req ++ lit ".";
      message req ].
Proof.
  split; [|repeat split].
  exists (completion_params req). split; [|reflexivity].
  unfold post_api_chat, try_block.
  destruct (groq (completion_params req)); reflexivity.
Qed.

(** C5 (as the code has it).  The date field of the prompt is "Not
    available" when the date is null, absent or the empty string.  A
    non-empty string that does not parse is rendered "Invalid Date".  A
    string that parses is rendered in the long [en-US] form, weekday,
    month name, day and year, of that instant in the time zone of the
    host; for a string in the Date Time String Format read on a host
    whose local day is then the UTC day, month, day and year are those
    written in the string.  "2024-06-01T00:00:00Z" renders as "Saturday,
    June 1, 2024" on a host at or east of UTC.  The field follows the
    label "Current Date: " on its own line. *)
Theorem formattedDate_cases (date : option jsstring) :
  ((date = None \/ date = Some []) ->
   formattedDate date = lit "Not available") /\
  (forall s, date = Some s -> s <> [] -> Date_parse s = None ->
             formattedDate date = lit "Invalid Date") /\
  (forall s t, date = Some s -> s <> [] -> Date_parse s = Some t ->
     let local := (t + LocalTZA t)%Z in
     formattedDate date =
       weekdayName (WeekDay local) ++ lit ", " ++
       monthName (MonthFromTime local) ++ lit " " ++
       decimal (DateFromTime local) ++ lit ", " ++
       decimal (yearOfEra (YearFromTime local)) /\
     (0 <= WeekDay local <= 6)%Z /\
     (1 <= MonthFromTime local <= 12)%Z /\
     (1 <= DateFromTime local <= 31)%Z /\
     (1 <= yearOfEra (YearFromTime local))%Z) /\
  (forall s t, date = Some s -> iso_parse s = Some t ->
     Date_parse s = Some t /\
     (Day (t + LocalTZA t) = Day t ->
      exists y m d rest,
        iso_date s = Some (y, m, d, rest) /\
        formattedDate date =
          weekdayName (WeekDay t) ++ lit ", " ++ monthName m ++ lit " " ++
          decimal d ++ lit ", " ++ decimal (yearOfEra y))) /\
  ((0 <= LocalTZA 1717200000000 < msPerDay)%Z ->
   formattedDate (Some (lit "2024-06-01T00:00:00Z")) =
     lit "Saturday, June 1, 2024") /\
  (forall location,
      Substring (lit "Current Date: " ++ formattedDate date ++ nl)
                (createSystemPrompt location date)).
Proof.
  split; [|split; [|split; [|split; [|split]]]].
  - intros [-> | ->]; reflexivity.
  - intros s -> Hs Hp. unfold formattedDate, toLocaleDateString.
    apply truthy_string_nonempty in Hs. now rewrite Hs, Hp.
  - intros s t -> Hs Hp local.
    split; [exact (formattedDate_parsed Hs Hp)|].
    split; [apply WeekDay_range|].
    unfold MonthFromTime, DateFromTime.
    pose proof (civil_from_days_range (Day local)) as [Hm Hd].
    repeat split; try apply Hm; try apply Hd.
    unfold yearOfEra. destruct (Z.ltb_spec 0 (YearFromTime local)); lia.
  - intros s t -> Hiso. split; [exact (@Date_parse_iso _ _ _ Hiso)|].
    intros Hday.
    destruct (@iso_parse_fields s t Hiso) as [y [m [d [rest [Hdate Hcivil]]]]].
    exists y, m, d, rest. split; [exact Hdate|].
    etransitivity;
      [exact (formattedDate_parsed (@iso_parse_nonempty s t Hiso)
                (@Date_parse_iso _ _ _ Hiso))|].
    unfold longDate_enUS, WeekDay, MonthFromTime, DateFromTime, YearFromTime.
    now rewrite Hday, Hcivil.
  - intros Htz.
    assert (Hiso : iso_parse (lit "2024-06-01T00:00:00Z")
                   = Some 1717200000000%Z) by (vm_compute; reflexivity).
    etransitivity;
      [exact (formattedDate_parsed (@iso_parse_nonempty _ _ Hiso)
                (@Date_parse_iso _ _ _ Hiso))|].
    unfold longDate_enUS, WeekDay, MonthFromTime, DateFromTime, YearFromTime.
    replace (Day (1717200000000 + LocalTZA 1717200000000)) with 19875%Z.
    + vm_compute. reflexivity.
    + symmetry. change 1717200000000%Z with (19875 * msPerDay)%Z.
      now apply Day_within.
  - intros location.
    eapply Substring_trans; [|apply (formattedDate_in_prompt location date)].
    unfold date_label. change (lit "    Current Date: ")
      with (lit "    " ++ lit "Current Date: ").
    rewrite <- app_assoc. apply Substring_app_l, Substring_refl.
Qed.

(** C6.  The location field of the prompt is the text "User's location
    is not available." when the location is null or lacks the latitude or
    the longitude; when both coordinates are present and truthy it is the
    labelled coordinate line.  The field sits on its own line of the
    prompt. *)
Theorem locationInfo_cases (location : option Location) :
  ((location = None \/
    exists l, location = Some l /\ (lat l = None \/ lon l = None)) ->
   locationInfo location = lit "User's location is not available.") /\
  (forall l la lo,
      location = Some l -> lat l = Some la -> lon l = Some lo ->
      Number_truthy la = true -> Number_truthy lo = true ->
      locationInfo location =
        lit "User's Approximate Location (Latitude, Longitude): "
        ++ Number_toString la ++ lit ", " ++ Number_toString lo) /\
  (forall date,
      Substring (nl ++ lit "    " ++ locationInfo location ++ nl)
                (createSystemPrompt location date)).
Proof.
  split; [|split].
  - intros [-> | [l [-> [H | H]]]]; [reflexivity | |];
      unfold locationInfo; rewrite H; cbn [truthy_coord]; [reflexivity|].
    now rewrite andb_false_r.
  - intros l la lo -> Hla Hlo Ta To.
    exact (locationInfo_present l Hla Hlo Ta To).
  - intros date. unfold createSystemPrompt.
    assert (Ht : exists rest, prompt_tail = nl ++ rest).
    { eexists. unfold prompt_tail. reflexivity. }
    destruct Ht as [rest ->].
    exists (prompt_head ++ formattedDate date), rest.
    now rewrite <- !app_assoc.
Qed.

(** C10.  When the upstream call succeeds but yields no choice, a first
    choice without a message, or a message whose content is missing, null
    or empty, the handler answers with status 200 and the body
    [{ response: "No response generated" }]. *)
Theorem empty_completion_is_200
    (groq : CompletionParams -> UpstreamResult) (req : ChatRequest)
    (c : ChatCompletion) :
  groq (completion_params req) = Resolved c ->
  (choices c = [] \/
   (exists rest, choices c = {| ch_message := None |} :: rest) \/
   (exists rest,
       choices c = {| ch_message := Some {| cm_content := None |} |} :: rest) \/
   (exists rest,
       choices c =
         {| ch_message := Some {| cm_content := Some [] |} |} :: rest)) ->
  fst (post_api_chat groq req) =
    Normal {| status := 200;
              body := BodyResponse (lit "No response generated") |}.
Proof.
  intros Hg Hc. unfold post_api_chat, try_block. rewrite Hg. cbn [fst].
  unfold response_text.
  destruct Hc as [-> | [[rest ->] | [[rest ->] | [rest ->]]]]; reflexivity.
Qed.
End Claims.

(** C1, as the specification states it, fails: for the location
    [{ lat: 13, lon: 80 }] the prompt contains the rendering of the
    latitude. *)
Lemma prompt_hides_coordinates_fails :
  ~ @prompt_hides_coordinates Hosts.ist
      (@Build_Location Hosts.ist (Some 13%Z) (Some 80%Z)) None.
Proof.
  intros H. destruct (H 13%Z 80%Z eq_refl eq_refl) as [Hlat _].
  apply Hlat. apply includes_Substring. vm_compute. reflexivity.
Qed.

(** C5, as the specification states it, fails: a string that does not parse
    is rendered "Invalid Date". *)
Lemma unparseable_date_not_available_fails :
  ~ @unparseable_date_not_available Hosts.ist (lit "not a date").
Proof.
  intros H. specialize (H eq_refl). vm_compute in H. discriminate H.
Qed.

Lemma formattedDate_cases_witness :
  @formattedDate Hosts.ist None = lit "Not available" /\
  @formattedDate Hosts.ist (Some (lit "not a date")) = lit "Invalid Date" /\
  @formattedDate Hosts.ist (Some (lit "2024-06-01T00:00:00Z"))
  = lit "Saturday, June 1, 2024".
Proof.
  split; [|split].
  - apply (proj1 (@formattedDate_cases Hosts.ist None)). left. reflexivity.
  - apply (proj1 (proj2 (@formattedDate_cases Hosts.ist
                           (Some (lit "not a date")))) _ eq_refl).
    + discriminate.
    + reflexivity.
  - apply (proj1 (proj2 (proj2 (proj2 (proj2
             (@formattedDate_cases Hosts.ist None)))))).
    change (0 <= 19800000 < 86400000)%Z. lia.
Defined.

(** On a host west of UTC the instant of the example falls on the day
    before. *)
Lemma example_date_west_of_utc :
  @formattedDate Hosts.edt (Some (lit "2024-06-01T00:00:00Z"))
  = lit "Friday, May 31, 2024".
Proof. vm_compute. reflexivity. Qed.

Lemma createSystemPrompt_embeds_coordinates_witness :
  let l := @Build_Location Hosts.ist (Some 13%Z) (Some 80%Z) in
  Substring (lit "13") (@createSystemPrompt Hosts.ist (Some l) None) /\
  Substring (lit "80") (@createSystemPrompt Hosts.ist (Some l) None).
Proof.
  intros l.
  pose proof (@createSystemPrompt_embeds_coordinates Hosts.ist l 13%Z 80%Z
                None eq_refl eq_refl eq_refl eq_refl) as [_ [Hla [Hlo _]]].
  split; [exact Hla | exact Hlo].
Defined.

Lemma upstream_failure_is_500_witness :
  let req := @Build_ChatRequest Hosts.ist (lit "Best flood-resistant rice?")
               (lit "English") None (Some (lit "2024-06-01T00:00:00Z")) in
  fst (@post_api_chat Hosts.ist (fun _ => Rejected (lit "quota exceeded")) req)
  = Normal {| status := 500;
              body := BodyError (lit "Failed to get response from AI")
                                (lit "quota exceeded") |}.
Proof.
  intros req.
  rewrite (proj1 (@upstream_failure_is_500 Hosts.ist
                    (fun _ => Rejected (lit "quota exceeded")) req
                    (lit "quota exceeded") eq_refl)).
  reflexivity.
Defined.

Lemma locationInfo_cases_witness :
  @locationInfo Hosts.ist None = lit "User's location is not available." /\
  @locationInfo Hosts.ist
     (Some (@Build_Location Hosts.ist (Some 13%Z) None))
  = lit "User's location is not available." /\
  @locationInfo Hosts.ist
     (Some (@Build_Location Hosts.ist (Some 13%Z) (Some 80%Z)))
  = lit "User's Approximate Location (Latitude, Longitude): 13, 80".
Proof.
  split; [|split].
  - apply (proj1 (@locationInfo_cases Hosts.ist None)). left. reflexivity.
  - apply (proj1 (@locationInfo_cases Hosts.ist _)). right.
    eexists. split; [reflexivity|]. right. reflexivity.
  - set (l := @Build_Location Hosts.ist (Some 13%Z) (Some 80%Z)).
    rewrite (proj1 (proj2 (@locationInfo_cases Hosts.ist (Some l)))
               l 13%Z 80%Z eq_refl eq_refl eq_refl eq_refl eq_refl).
    reflexivity.
Defined.

Lemma empty_completion_is_200_witness :
  let req := @Build_ChatRequest Hosts.ist (lit "Will it rain tomorrow?")
               (lit "Hindi") None None in
  fst (@post_api_chat Hosts.ist
         (fun _ => Resolved {| choices := [] |}) req)
  = Normal {| status := 200;
              body := BodyResponse (lit "No response generated") |}.
Proof.
  intros req.
  apply (@empty_completion_is_200 Hosts.ist _ req {| choices := [] |} eq_refl).
  left. reflexivity.
Defined.

End ServerSpec.

(* ================================================================= *)
(** ** The client meets its contract, except on the Enter key *)

Module ClientSpec.
Import Js JsFacts Client Scenarios.

(** *** Trimming *)

Lemma trimStart_whitespace (s : jsstring) :
  Forall (fun c => isWhiteSpace c = true) s -> trimStart s = [].
Proof.
  induction 1 as [|c s Hc _ IH]; [reflexivity|].
  cbn [trimStart]. now rewrite Hc.
Qed.

Lemma trimStart_keeps_last (s : jsstring) (c : N) :
  isWhiteSpace c = false -> trimStart (s ++ [c]) <> [].
Proof.
  intros Hc. induction s as [|d s IH]; cbn [app trimStart].
  - now rewrite Hc.
  - destruct (isWhiteSpace d); [exact IH | discriminate].
Qed.

Lemma trimStart_empty (s : jsstring) :
  trimStart s = [] -> Forall (fun c => isWhiteSpace c = true) s.
Proof.
  induction s as [|c s IH]; [constructor|].
  cbn [trimStart]. destruct (isWhiteSpace c) eqn:Hc; [|discriminate].
  intros H. constructor; [exact Hc | exact (IH H)].
Qed.

(** [trim] yields the empty string exactly on the strings made of white
    space only, the empty string among them. *)
Lemma trim_empty_iff (s : jsstring) :
  trim s = [] <-> Forall (fun c => isWhiteSpace c = true) s.
Proof.
  split.
  - unfold trim, trimEnd. intros H.
    destruct (trimStart s) as [|c r] eqn:E.
    + now apply trimStart_empty.
    + exfalso.
      assert (Hc : isWhiteSpace c = false).
      { clear H. induction s as [|d s IH]; [discriminate|].
        cbn [trimStart] in E. destruct (isWhiteSpace d) eqn:Hd.
        - exact (IH E).
        - now injection E as -> _. }
      apply (f_equal (@rev N)) in H. rewrite rev_involutive in H.
      cbn [rev] in H.
      destruct (rev r) as [|x xs] eqn:Er.
      * cbn in H. rewrite Hc in H. discriminate.
      * pose proof (@trimStart_keeps_last ((x :: xs)) c Hc) as Hn.
        apply Hn. exact H.
  - intros H. unfold trim, trimEnd.
    now rewrite (trimStart_whitespace H).
Qed.

Section WithLocation.
Variable Loc : Type.
Variable location : Loc.

(** *** The synchronous part of a send *)

Lemma handleSendMessage_sends (now : Z) (st : State) (text : jsstring) :
  trim text <> [] \/ attachedFiles st <> [] ->
  handleSendMessage location now st text =
    ({| messages := messages st ++
          [ {| id := integer_toString now;
               text := trim text;
               isBot := false;
               timestamp := now;
               attachments :=
                 if (0 <? List.length (attachedFiles st))%nat
                 then Some (attachedFiles st) else None |} ];
        inputValue := [];
        isTyping := true;
        language := language st;
        attachedFiles := [] |},
     Some {| rb_message := messageText text (attachedFiles st);
             rb_language := language st;
             rb_location := location;
             rb_date := toISOString now |}).
Proof.
  intros H. unfold handleSendMessage.
  destruct (negb (truthy_string (trim text))
            && (List.length (attachedFiles st) =? 0)%nat) eqn:E;
    [|reflexivity].
  exfalso. apply andb_true_iff in E as [Et Ea].
  apply negb_true_iff in Et. apply Nat.eqb_eq in Ea.
  destruct H as [H | H].
  - apply truthy_string_nonempty in H. congruence.
  - destruct (attachedFiles st); [now apply H | discriminate].
Qed.

Lemma handleSendMessage_noop (now : Z) (st : State) (text : jsstring) :
  trim text = [] -> attachedFiles st = [] ->
  handleSendMessage location now st text = (st, None).
Proof.
  intros Ht Ha. unfold handleSendMessage. now rewrite Ht, Ha.
Qed.

(** *** The transcript only grows *)

Lemma extends_refl (l : list Message) : extends l l.
Proof. exists []. now rewrite app_nil_r. Qed.

Lemma extends_trans (a b c : list Message) :
  extends a b -> extends b c -> extends a c.
Proof.
  intros [m1 ->] [m2 ->]. exists (m1 ++ m2). now rewrite app_assoc.
Qed.

Lemma handleSendMessage_extends (now : Z) (st : State) (text : jsstring) :
  extends (messages st)
          (messages (fst (handleSendMessage location now st text))).
Proof.
  unfold handleSendMessage.
  destruct (negb (truthy_string (trim text))
            && (List.length (attachedFiles st) =? 0)%nat).
  - apply extends_refl.
  - cbn [fst messages]. now eexists.
Qed.

Lemma step_extends (w : World Loc) (e : Event) :
  extends (messages (ui w)) (messages (ui (step location w e))).
Proof.
  destruct e as [now | now key shiftKey | now i | v | l | new | index
                | now ex]; cbn [step].
  - unfold after_send, Button_onClick.
    destruct (sendDisabled (ui w)); [apply extends_refl|].
    pose proof (handleSendMessage_extends now (ui w) (inputValue (ui w))).
    destruct (snd (handleSendMessage location now (ui w) (inputValue (ui w))));
      exact H.
  - unfold after_send, Input_onKeyDown.
    destruct (jsstring_eqb key (lit "Enter") && negb shiftKey);
      [|apply extends_refl].
    pose proof (handleSendMessage_extends now (ui w) (inputValue (ui w))).
    destruct (snd (handleSendMessage location now (ui w) (inputValue (ui w))));
      exact H.
  - unfold after_send, Suggested_onClick.
    destruct (suggestionsShown (ui w)); [|apply extends_refl].
    destruct (nth_error SUGGESTED_QUESTIONS i) as [q|];
      [|apply extends_refl].
    pose proof (handleSendMessage_extends now (ui w) q).
    destruct (snd (handleSendMessage location now (ui w) q)); exact H.
  - apply extends_refl.
  - apply extends_refl.
  - apply extends_refl.
  - apply extends_refl.
  - destruct (inflight w); [apply extends_refl|].
    cbn [ui handleSendMessage_settle messages]. now eexists.
Qed.

Lemma run_extends (events : list Event) : forall w : World Loc,
  extends (messages (ui w)) (messages (ui (run location w events))).
Proof.
  induction events as [|e events IH]; intros w; cbn [run fold_left].
  - apply extends_refl.
  - eapply extends_trans; [apply step_extends | apply IH].
Qed.
(** *** Requests, transcript and exchanges in flight *)

Lemma handleSendMessage_cases (now : Z) (st : State) (text : jsstring) :
  handleSendMessage location now st text = (st, None) \/
  exists st' req u,
    handleSendMessage location now st text = (st', Some req) /\
    messages st' = messages st ++ [u] /\ isBot u = false.
Proof.
  unfold handleSendMessage.
  destruct (negb (truthy_string (trim text))
            && (List.length (attachedFiles st) =? 0)%nat).
  - left. reflexivity.
  - right. do 3 eexists. split; [reflexivity|]. split; reflexivity.
Qed.

Lemma after_send_balance (w : World Loc) (now : Z) (text : jsstring) :
  balance w (after_send w (handleSendMessage location now (ui w) text)).
Proof.
  unfold balance, after_send.
  destruct (handleSendMessage_cases now (ui w) text)
    as [-> | [st' [req [u [-> [Hm _]]]]]]; cbn [fst snd ui outbox inflight].
  - lia.
  - rewrite Hm, !length_app. cbn [List.length]. lia.
Qed.

Lemma step_balance (w : World Loc) (e : Event) :
  balance w (step location w e).
Proof.
  destruct e as [now | now key shiftKey | now i | v | l | new | index
                | now ex]; cbn [step]; try (unfold balance; cbn; lia).
  - unfold Button_onClick. destruct (sendDisabled (ui w)).
    + unfold balance, after_send. cbn. lia.
    + apply after_send_balance.
  - unfold Input_onKeyDown.
    destruct (jsstring_eqb key (lit "Enter") && negb shiftKey).
    + apply after_send_balance.
    + unfold balance, after_send. cbn. lia.
  - unfold Suggested_onClick. destruct (suggestionsShown (ui w)).
    + destruct (nth_error SUGGESTED_QUESTIONS i) as [q|].
      * apply after_send_balance.
      * unfold balance, after_send. cbn. lia.
    + unfold balance, after_send. cbn. lia.
  - unfold balance. destruct (inflight w) as [|n] eqn:E; cbv iota.
    + rewrite E. lia.
    + cbn [ui outbox inflight handleSendMessage_settle messages].
      rewrite length_app. cbn [List.length]. lia.
Qed.

Lemma run_balance (events : list Event) : forall w : World Loc,
  balance w (run location w events).
Proof.
  induction events as [|e events IH]; intros w; cbn [run fold_left].
  - unfold balance. lia.
  - pose proof (step_balance w e) as H1.
    pose proof (IH (step location w e)) as H2.
    unfold balance, run in *. lia.
Qed.

(** *** The controls that send *)

Lemma Button_onClick_while_typing (now : Z) (st : State) :
  isTyping st = true -> Button_onClick location now st = (st, None).
Proof.
  intros H. unfold Button_onClick, sendDisabled.
  now rewrite H, orb_true_r.
Qed.

Lemma Suggested_onClick_while_typing (now : Z) (st : State) (i : nat) :
  isTyping st = true -> Suggested_onClick location now st i = (st, None).
Proof.
  intros H. unfold Suggested_onClick, suggestionsShown.
  now rewrite H, andb_false_r.
Qed.

(** C2 (the code at the failing input).  While an exchange is in flight
    the send button and the suggested questions do nothing, but the Enter
    key in the input still runs [handleSendMessage]: with a non-blank
    input it appends a second user message and issues a second request. *)
Theorem enter_key_sends_while_typing (now : Z) (st : State) :
  isTyping st = true -> trim (inputValue st) <> [] ->
  Button_onClick location now st = (st, None) /\
  exists st' req userMessage,
    Input_onKeyDown location now st (lit "Enter") false = (st', Some req) /\
    messages st' = messages st ++ [userMessage] /\
    isBot userMessage = false /\
    text userMessage = trim (inputValue st).
Proof.
  intros Ht Hi. split; [now apply Button_onClick_while_typing|].
  unfold Input_onKeyDown.
  replace (jsstring_eqb (lit "Enter") (lit "Enter") && negb false)
    with true by reflexivity.
  rewrite (handleSendMessage_sends now st (inputValue st) (or_introl Hi)).
  do 3 eexists. split; [reflexivity|]. cbn [messages].
  split; [reflexivity|]. split; reflexivity.
Qed.

(** C7.  A send with text that is not blank, or with an attachment,
    appends exactly one user message at once and issues one request; when
    the exchange settles, whether it succeeded or failed, exactly one bot
    message is appended to the transcript as it then is.  Over the turn
    the transcript grows by exactly two messages, and no later event
    removes or changes the user message. *)
Theorem send_turn_adds_two
    (now now' : Z) (st : State) (text : jsstring) (ex : Exchange) :
  trim text <> [] \/ attachedFiles st <> [] ->
  exists st1 req userMessage,
    handleSendMessage location now st text = (st1, Some req) /\
    messages st1 = messages st ++ [userMessage] /\
    isBot userMessage = false /\
    (forall st2,
        messages (handleSendMessage_settle now' st2 ex)
        = messages st2 ++ [botMessage now' ex]) /\
    isBot (botMessage now' ex) = true /\
    messages (handleSendMessage_settle now' st1 ex)
    = messages st ++ [userMessage; botMessage now' ex] /\
    List.length (messages (handleSendMessage_settle now' st1 ex))
    = (List.length (messages st) + 2)%nat /\
    (forall (w : World Loc) events,
        ui w = st1 ->
        extends (messages st ++ [userMessage])
                (messages (ui (run location w events)))).
Proof.
  intros H. rewrite (handleSendMessage_sends now st text H).
  do 3 eexists. split; [reflexivity|].
  unfold handleSendMessage_settle. cbn [messages].
  split; [reflexivity|]. split; [reflexivity|].
  split; [reflexivity|].
  split; [destruct ex as [|[|] [r|]]; reflexivity|].
  split; [now rewrite <- app_assoc|].
  split.
  - rewrite !length_app. cbn [List.length]. lia.
  - intros w events Hw.
    pose proof (run_extends events w) as Hx.
    now rewrite Hw in Hx.
Qed.

(** C8.  A send with text that is empty or made of white space only, and
    with no attachment staged, changes nothing: the state of the
    component, transcript, input, staged attachments and composing
    indicator, is the same, and no request is issued.  So it is for the
    controls that send the input. *)
Theorem blank_send_is_noop (now : Z) (st : State) (text : jsstring) :
  Forall (fun c => isWhiteSpace c = true) text ->
  attachedFiles st = [] ->
  handleSendMessage location now st text = (st, None) /\
  (inputValue st = text ->
   Button_onClick location now st = (st, None) /\
   forall key shiftKey,
     Input_onKeyDown location now st key shiftKey = (st, None)) /\
  (forall (w : World Loc),
      ui w = st -> inputValue st = text ->
      step location w (ClickSend now) = w /\
      forall key shiftKey,
        step location w (KeyDown now key shiftKey) = w).
Proof.
  intros Hws Ha. apply trim_empty_iff in Hws.
  pose proof (@handleSendMessage_noop now st text Hws Ha) as Hnoop.
  assert (Hctl : inputValue st = text ->
            Button_onClick location now st = (st, None) /\
            forall key shiftKey,
              Input_onKeyDown location now st key shiftKey = (st, None)).
  { intros Hi. split.
    - unfold Button_onClick. rewrite Hi, Hnoop.
      now destruct (sendDisabled st).
    - intros key shiftKey. unfold Input_onKeyDown. rewrite Hi, Hnoop.
      now destruct (jsstring_eqb key (lit "Enter") && negb shiftKey). }
  split; [exact Hnoop|]. split; [exact Hctl|].
  intros w Hw Hi. destruct (Hctl Hi) as [Hb Hk].
  split.
  - cbn [step]. rewrite Hw, Hb. unfold after_send. cbn [fst snd].
    rewrite <- Hw. now destruct w.
  - intros key shiftKey. cbn [step]. rewrite Hw, Hk.
    unfold after_send. cbn [fst snd]. rewrite <- Hw. now destruct w.
Qed.

(** C9.  A send with at least one attachment issues a request whose
    message is the trimmed text followed, on a new line, by the bracketed
    list of the file names joined by a comma and a space, and is just the
    bracketed list when the trimmed text is empty.  The request depends on
    the attachments through their file names only: neither the content of
    a file nor its preview occurs in it. *)
Theorem request_names_attachments
    (now : Z) (st : State) (text : jsstring) :
  attachedFiles st <> [] ->
  exists st' req,
    handleSendMessage location now st text = (st', Some req) /\
    rb_message req =
      trim text ++ (if truthy_string (trim text) then nl else []) ++
      lit "[Attached files: " ++
      join (lit ", ") (List.map (fun a => name (file a)) (attachedFiles st))
      ++ lit "]" /\
    (trim text = [] ->
     rb_message req =
       lit "[Attached files: " ++
       join (lit ", ")
            (List.map (fun a => name (file a)) (attachedFiles st))
       ++ lit "]") /\
    req = {| rb_message := rb_message req;
             rb_language := language st;
             rb_location := location;
             rb_date := toISOString now |} /\
    (forall other : State,
        language other = language st ->
        List.map (fun a => name (file a)) (attachedFiles other)
        = List.map (fun a => name (file a)) (attachedFiles st) ->
        snd (handleSendMessage location now other text) = Some req).
Proof.
  intros Ha.
  assert (Hlen : (0 <? List.length (attachedFiles st))%nat = true).
  { destruct (attachedFiles st); [now elim Ha | reflexivity]. }
  assert (Hmsg : messageText text (attachedFiles st) =
            trim text ++ (if truthy_string (trim text) then nl else []) ++
            lit "[Attached files: " ++
            join (lit ", ")
                 (List.map (fun a => name (file a)) (attachedFiles st))
            ++ lit "]").
  { unfold messageText, fileNames. rewrite Hlen.
    destruct (truthy_string (trim text)); reflexivity. }
  rewrite (handleSendMessage_sends now st text (or_intror Ha)).
  do 2 eexists. split; [reflexivity|]. cbn [rb_message].
  split; [exact Hmsg|]. split.
  - intros Ht. rewrite Hmsg, Ht. reflexivity.
  - split; [reflexivity|].
    intros other Hl Hn.
    assert (Ho : attachedFiles other <> []).
    { intros E. rewrite E in Hn. cbn in Hn.
      destruct (attachedFiles st); [now elim Ha | discriminate]. }
    rewrite (handleSendMessage_sends now other text (or_intror Ho)).
    cbn [snd]. rewrite Hl. do 2 f_equal.
    unfold messageText, fileNames. rewrite Hn.
    replace (List.length (attachedFiles other))
      with (List.length (attachedFiles st)); [reflexivity|].
    rewrite <- (length_map (fun a => name (file a)) (attachedFiles st)).
    rewrite <- Hn. now rewrite length_map.
Qed.
End WithLocation.

(** *** The theorems at concrete states *)

Lemma enter_key_sends_while_typing_witness :
  isTyping typing_second_question = true /\
  exists st' req userMessage,
    Input_onKeyDown here 2000 typing_second_question (lit "Enter") false
    = (st', Some req) /\
    messages st' = messages typing_second_question ++ [userMessage] /\
    isBot userMessage = false /\
    text userMessage = trim (inputValue typing_second_question).
Proof.
  split; [reflexivity|].
  apply (@enter_key_sends_while_typing _ here 2000 typing_second_question).
  - reflexivity.
  - vm_compute. discriminate.
Defined.

(** Two Enter keys in a row, nothing settled in between: two requests are
    out and two exchanges are in flight. *)
Lemma two_exchanges_in_flight :
  let w := run here (initialWorld (option (Z * Z)) 0)
             [ ChangeInput (lit "Will it rain tomorrow?");
               KeyDown 1000 (lit "Enter") false;
               ChangeInput (lit "Current Wheat prices?");
               KeyDown 2000 (lit "Enter") false ] in
  List.map (@rb_message _) (outbox w)
  = [lit "Will it rain tomorrow?"; lit "Current Wheat prices?"] /\
  inflight w = 2%nat /\
  List.map isBot (messages (ui w)) = [true; false; false].
Proof. vm_compute. repeat split. Qed.

Lemma send_turn_adds_two_witness :
  List.length
    (messages
       (handleSendMessage_settle 2000
          (fst (handleSendMessage here 1000 (initialState 0)
                  (lit "Best flood-resistant rice?")))
          NetworkError))
  = 3%nat.
Proof.
  destruct (@send_turn_adds_two _ here 1000 2000 (initialState 0)
              (lit "Best flood-resistant rice?") NetworkError)
    as [st1 [req [u [E [_ [_ [_ [_ [_ [Hlen _]]]]]]]]]].
  - left. vm_compute. discriminate.
  - rewrite E. cbn [fst]. rewrite Hlen. reflexivity.
Defined.

Lemma blank_send_is_noop_witness :
  handleSendMessage here 1000 (initialState 0) (lit "   ")
  = (initialState 0, None).
Proof.
  refine (proj1 (@blank_send_is_noop _ here 1000 (initialState 0)
                   (lit "   ") _ _)).
  - repeat constructor.
  - reflexivity.
Defined.

Lemma request_names_attachments_witness :
  exists st' req,
    handleSendMessage here 1000
      (addAttachments (initialState 0) [soil_report; leaf_photo])
      (lit " Is my soil fine? ")
    = (st', Some req) /\
    rb_message req =
      lit "Is my soil fine?" ++ nl
      ++ lit "[Attached files: soil.pdf, leaf.png]".
Proof.
  destruct (@request_names_attachments _ here 1000
              (addAttachments (initialState 0) [soil_report; leaf_photo])
              (lit " Is my soil fine? "))
    as [st' [req [E [Hm _]]]].
  - discriminate.
  - exists st', req. split; [exact E|]. rewrite Hm. vm_compute. reflexivity.
Defined.

End ClientSpec.

(* ================================================================= *)
(** ** Dates written by [toISOString] are read back by [Date.parse] *)

Module IsoRoundTrip.
Import Js JsFacts DecimalDigits.

Local Open Scope Z_scope.

Ltac eval_closed_tests :=
  repeat (repeat match goal with
                 | |- context [Z.leb ?a ?b] =>
                     let v := eval vm_compute in (Z.leb a b) in
                     match v with true => idtac | false => idtac end;
                     change (Z.leb a b) with v
                 | |- context [Z.ltb ?a ?b] =>
                     let v := eval vm_compute in (Z.ltb a b) in
                     match v with true => idtac | false => idtac end;
                     change (Z.ltb a b) with v
                 | |- context [Z.eqb ?a ?b] =>
                     let v := eval vm_compute in (Z.eqb a b) in
                     match v with true => idtac | false => idtac end;
                     change (Z.eqb a b) with v
                 end; cbv iota; cbn [orb]).

(** *** The calendar, from a day number to its date and back *)

Lemma civil_valid (n : Z) :
  MakeDay (fst (fst (civil_from_days n))) (snd (fst (civil_from_days n)))
          (snd (civil_from_days n)) = n /\
  snd (civil_from_days n) <=
    DaysInMonth (fst (fst (civil_from_days n)))
                (snd (fst (civil_from_days n))).
Proof.
  unfold civil_from_days. cbv zeta. cbn [fst snd].
  set (z := n + 719468).
  set (era := z / 146097).
  set (doe := z mod 146097).
  assert (Hz : z = era * 146097 + doe)
    by (subst era doe; pose proof (Z.div_mod z 146097); lia).
  assert (Hdoe : 0 <= doe < 146097) by (apply Z.mod_pos_bound; lia).
  clearbody era doe.
  set (yoe := (doe - doe / 1460 + doe / 36524 - doe / 146096) / 365).
  set (doy := doe - (365 * yoe + yoe / 4 - yoe / 100)).
  assert (Hy : 0 <= yoe <= 399 /\ 0 <= doy <= 365 /\
               (doy = 365 -> (yoe + 1) mod 4 = 0 /\
                             ((yoe + 1) mod 100 <> 0 \/ yoe = 399)))
    by (subst doy yoe; Z.div_mod_to_equations; lia).
  assert (Hdoe2 : doe = 365 * yoe + yoe / 4 - yoe / 100 + doy)
    by (subst doy; lia).
  clearbody doy. clearbody yoe.
  set (mp := (5 * doy + 2) / 153).
  assert (Hmp : 0 <= mp <= 11) by (subst mp; Z.div_mod_to_equations; lia).
  assert (Hd : 153 * mp + 2 <= 5 * doy + 4 /\ 5 * doy + 2 < 153 * (mp + 1))
    by (subst mp; Z.div_mod_to_equations; lia).
  clearbody mp.
  assert (Hc : mp = 0 \/ mp = 1 \/ mp = 2 \/ mp = 3 \/ mp = 4 \/ mp = 5 \/
               mp = 6 \/ mp = 7 \/ mp = 8 \/ mp = 9 \/ mp = 10 \/ mp = 11)
    by lia.
  unfold MakeDay, DaysInMonth, isLeapYear.
  destruct Hc as [-> | [-> | [-> | [-> | [-> | [-> | [-> | [-> | [-> | [-> |
                  [-> | ->]]]]]]]]]]];
    eval_closed_tests;
    try (split; [Z.div_mod_to_equations; lia | Z.div_mod_to_equations; lia]).
  split; [Z.div_mod_to_equations; lia|].
  change (doy - (153 * 11 + 2) / 5 + 1 <=
          (if isLeapYear (yoe + era * 400 + 1) then 29 else 28)).
  destruct (isLeapYear (yoe + era * 400 + 1)) eqn:E.
  - Z.div_mod_to_equations; lia.
  - assert (Hn : ~ ((yoe + era * 400 + 1) mod 4 = 0 /\
                    ((yoe + era * 400 + 1) mod 100 <> 0 \/
                     (yoe + era * 400 + 1) mod 400 = 0))).
    { intros Hl. apply isLeapYear_spec in Hl. congruence. }
    Z.div_mod_to_equations; lia.
Qed.

(** The days of the years 0 to 9999. *)
Lemma year_range (n : Z) :
  -719528 <= n < 2932897 -> 0 <= fst (fst (civil_from_days n)) <= 9999.
Proof.
  intros Hn.
  unfold civil_from_days. cbv zeta. cbn [fst snd].
  set (z := n + 719468).
  assert (Hzr : -60 <= z < 3652365) by (subst z; lia).
  set (era := z / 146097).
  set (doe := z mod 146097).
  assert (Hz : z = era * 146097 + doe)
    by (subst era doe; pose proof (Z.div_mod z 146097); lia).
  assert (Hdoe : 0 <= doe < 146097) by (apply Z.mod_pos_bound; lia).
  clearbody era doe. clearbody z.
  set (yoe := (doe - doe / 1460 + doe / 36524 - doe / 146096) / 365).
  set (doy := doe - (365 * yoe + yoe / 4 - yoe / 100)).
  assert (Hy : 0 <= yoe <= 399 /\ 0 <= doy <= 365)
    by (subst doy yoe; Z.div_mod_to_equations; lia).
  assert (Hdoe2 : doe = 365 * yoe + yoe / 4 - yoe / 100 + doy)
    by (subst doy; lia).
  clearbody doy. clearbody yoe.
  set (mp := (5 * doy + 2) / 153).
  assert (Hd : 153 * mp + 2 <= 5 * doy + 4 /\ 5 * doy + 2 < 153 * (mp + 1))
    by (subst mp; Z.div_mod_to_equations; lia).
  clearbody mp.
  destruct (Z.ltb_spec mp 10).
  - destruct (Z.leb_spec (mp + 3) 2); [lia|]. Z.div_mod_to_equations; lia.
  - destruct (Z.leb_spec (mp - 9) 2); [|lia]. Z.div_mod_to_equations; lia.
Qed.

(** *** Fixed-width decimal fields *)

Lemma lit_String (a : Ascii.ascii) (s : string) :
  lit (String a s) = Ascii.N_of_ascii a :: lit s.
Proof. reflexivity. Qed.

Lemma length_string_of_uint (d : Decimal.uint) :
  List.length (lit (NilEmpty.string_of_uint d)) = Decimal.nb_digits d.
Proof.
  induction d; cbn [NilEmpty.string_of_uint Decimal.nb_digits];
    [reflexivity | ..]; rewrite lit_String; cbn [List.length]; congruence.
Qed.

Lemma digits_string_of_uint (d : Decimal.uint) : forall rest acc,
  digits (Decimal.nb_digits d) (lit (NilEmpty.string_of_uint d) ++ rest) acc
  = Some (uint_value d acc, rest).
Proof.
  induction d; intros rest acc;
    cbn [NilEmpty.string_of_uint Decimal.nb_digits uint_value];
    [reflexivity | ..];
    rewrite lit_String, <- app_comm_cons; cbn [digits];
    match goal with
    | |- context [digit ?c] =>
        let v := eval vm_compute in (digit c) in change (digit c) with v
    end; cbv iota; rewrite ?Z.add_0_r; apply IHd.
Qed.

Lemma uint_value_of_lu (d : Decimal.uint) : forall acc,
  uint_value d acc =
  Z.of_N (DecimalPos.Unsigned.of_lu (Decimal.rev d))
  + acc * 10 ^ Z.of_N (DecimalPos.Unsigned.usize d).
Proof.
  induction d; intros acc; cbn [uint_value DecimalPos.Unsigned.usize];
    [cbn; lia | ..];
    rewrite IHd;
    match goal with
    | |- context [Decimal.rev (?f d)] =>
        change (Decimal.rev (f d)) with (Decimal.revapp d (f Decimal.Nil));
        rewrite (DecimalPos.Unsigned.of_lu_revapp d (f Decimal.Nil))
    end;
    cbn [DecimalPos.Unsigned.of_lu];
    rewrite N2Z.inj_add, N2Z.inj_mul, N2Z.inj_pow, N2Z.inj_succ, Z.pow_succ_r
      by apply N2Z.is_nonneg;
    change (Z.of_N 10) with 10;
    match goal with
    | |- context [Z.of_N ?n * 10 ^ _] =>
        let v := eval vm_compute in (Z.of_N n) in
        change (Z.of_N n) with v
    end; lia.
Qed.

Lemma uint_value_to_uint (n : N) : uint_value (N.to_uint n) 0 = Z.of_N n.
Proof.
  rewrite uint_value_of_lu, Z.mul_0_l, Z.add_0_r.
  rewrite <- DecimalPos.Unsigned.of_uint_alt.
  change (Pos.of_uint (N.to_uint n)) with (N.of_uint (N.to_uint n)).
  now rewrite DecimalN.Unsigned.of_to.
Qed.

Lemma usize_nb_digits (d : Decimal.uint) :
  Z.of_N (DecimalPos.Unsigned.usize d) = Z.of_nat (Decimal.nb_digits d).
Proof.
  induction d; cbn [DecimalPos.Unsigned.usize Decimal.nb_digits];
    [reflexivity | ..]; rewrite N2Z.inj_succ, Nat2Z.inj_succ; congruence.
Qed.

Lemma to_uint_nonnil (n : N) : N.to_uint n <> Decimal.Nil.
Proof.
  destruct n as [|p]; cbn [N.to_uint]; [discriminate|].
  apply DecimalPos.Unsigned.to_uint_nonnil.
Qed.

Lemma to_uint_normal (n : N) : Decimal.unorm (N.to_uint n) = N.to_uint n.
Proof.
  rewrite <- (DecimalN.Unsigned.to_of (N.to_uint n)).
  now rewrite DecimalN.Unsigned.of_to.
Qed.

Lemma nzhead_head (d : Decimal.uint) :
  match Decimal.nzhead d with Decimal.D0 _ => False | _ => True end.
Proof. induction d; cbn [Decimal.nzhead]; trivial. Qed.

Lemma uint_value_lower (d : Decimal.uint) (acc : Z) :
  0 <= acc -> acc * 10 ^ Z.of_nat (Decimal.nb_digits d) <= uint_value d acc.
Proof.
  intros _. rewrite uint_value_of_lu, usize_nb_digits.
  pose proof (N2Z.is_nonneg (DecimalPos.Unsigned.of_lu (Decimal.rev d))). lia.
Qed.

(** A number below [10 ^ w] is printed with at most [w] digits. *)
Lemma nb_digits_to_uint (n : N) (w : nat) :
  (1 <= w)%nat -> Z.of_N n < 10 ^ Z.of_nat w ->
  (Decimal.nb_digits (N.to_uint n) <= w)%nat.
Proof.
  intros Hw Hn.
  pose proof (uint_value_to_uint n) as Hv.
  pose proof (to_uint_normal n) as Hnorm.
  pose proof (nzhead_head (N.to_uint n)) as Hhd.
  unfold Decimal.unorm in Hnorm.
  destruct (Decimal.nzhead (N.to_uint n)) as [|d|d|d|d|d|d|d|d|d|d] eqn:E;
    [rewrite <- Hnorm; cbn; lia | contradiction | ..];
    rewrite <- Hnorm in Hv |- *; cbn [uint_value Decimal.nb_digits] in Hv |- *;
    match type of Hv with
    | uint_value d ?a = _ =>
        pose proof (@uint_value_lower d a ltac:(lia)) as Hlow
    end;
    rewrite Hv in Hlow;
    assert (Hlt : 10 ^ Z.of_nat (Decimal.nb_digits d) < 10 ^ Z.of_nat w)
      by (pose proof (Z.pow_pos_nonneg 10 (Z.of_nat (Decimal.nb_digits d))
                        ltac:(lia) ltac:(lia)); nia);
    apply Z.pow_lt_mono_r_iff in Hlt; lia.
Qed.

Lemma digits_zeros (j : nat) : forall k s,
  digits (j + k) (repeat 48%N j ++ s) 0 = digits k s 0.
Proof.
  induction j as [|j IH]; intros k s; [reflexivity|].
  cbn [repeat Nat.add]. rewrite <- app_comm_cons. cbn [digits].
  change (digit 48) with (Some 0). cbv iota. apply IH.
Qed.

(** Reading [width] digits gives back a number printed on [width] digits. *)
Lemma digits_padStart0 (width : nat) (v : Z) (rest : jsstring) :
  (1 <= width)%nat -> 0 <= v < 10 ^ Z.of_nat width ->
  digits width (padStart0 width (decimal v) ++ rest) 0 = Some (v, rest).
Proof.
  intros Hw Hv. unfold padStart0, decimal.
  set (n := Z.to_N v).
  assert (Hn : Z.of_N n = v) by (subst n; apply Z2N.id; lia).
  unfold NilZero.string_of_uint.
  pose proof (to_uint_nonnil n) as Hnil.
  destruct (N.to_uint n) as [|d|d|d|d|d|d|d|d|d|d] eqn:E; [contradiction | ..];
    rewrite <- E in *;
    rewrite length_string_of_uint;
    pose proof (@nb_digits_to_uint n width Hw ltac:(lia)) as Hlen;
    rewrite <- app_assoc;
    replace width with
      ((width - Decimal.nb_digits (N.to_uint n))
       + Decimal.nb_digits (N.to_uint n))%nat at 1 by lia;
    rewrite digits_zeros, digits_string_of_uint, uint_value_to_uint, Hn;
    reflexivity.
Qed.

(** *** The round trip *)

Lemma expect_lit (c : N) (rest : jsstring) :
  expect c (c :: rest) = Some rest.
Proof. cbn [expect]. now rewrite N.eqb_refl. Qed.

Lemma MakeTime_fields (w : Z) :
  0 <= w < msPerDay ->
  0 <= w / 3600000 <= 23 /\ 0 <= w / 60000 mod 60 <= 59 /\
  0 <= w / 1000 mod 60 <= 59 /\ 0 <= w mod 1000 <= 999 /\
  MakeTime (w / 3600000) (w / 60000 mod 60) (w / 1000 mod 60) (w mod 1000) = w.
Proof.
  unfold msPerDay, MakeTime. intros H. Z.div_mod_to_equations. lia.
Qed.

(** [Date.parse] reads back what [toISOString] writes, for every instant
    of the years 0 to 9999. *)
Lemma iso_parse_toISOString (t : Z) :
  -62167219200000 <= t <= 253402300799999 ->
  iso_parse (toISOString t) = Some t.
Proof.
  intros Ht.
  assert (Hday : -719528 <= Day t < 2932897)
    by (unfold Day, msPerDay; Z.div_mod_to_equations; lia).
  pose proof (@year_range (Day t) Hday) as Hy.
  pose proof (civil_from_days_range (Day t)) as [Hm Hd].
  pose proof (civil_valid (Day t)) as [Hmk Hdim].
  assert (Hw : 0 <= TimeWithinDay t < msPerDay)
    by (apply Z.mod_pos_bound; unfold msPerDay; lia).
  pose proof (@MakeTime_fields _ Hw) as [Hh [Hmi [Hs [Hms Hmt]]]].
  unfold toISOString, YearFromTime, MonthFromTime, DateFromTime in *.
  cbv zeta.
  set (y := fst (fst (civil_from_days (Day t)))) in *.
  set (m := snd (fst (civil_from_days (Day t)))) in *.
  set (d := snd (civil_from_days (Day t))) in *.
  set (w := TimeWithinDay t) in *.
  unfold iso_parse, iso_date.
  change (lit "-") with [45%N]. change (lit "T") with [84%N].
  change (lit ":") with [58%N]. change (lit ".") with [46%N].
  change (lit "Z") with [90%N].
  rewrite (@digits_padStart0 4) by (change (10 ^ Z.of_nat 4) with 10000; lia).
  cbn [obind app]. rewrite expect_lit. cbn [obind].
  rewrite (@digits_padStart0 2) by (change (10 ^ Z.of_nat 2) with 100; lia).
  cbn [obind app]. rewrite expect_lit. cbn [obind].
  rewrite (@digits_padStart0 2) by (change (10 ^ Z.of_nat 2) with 100; lia).
  cbn [obind app].
  replace ((1 <=? m) && (m <=? 12) && (1 <=? d) && (d <=? DaysInMonth y m))
    with true
    by (symmetry; rewrite !andb_true_iff, !Z.leb_le; lia).
  cbn [obind]. unfold parse_time.
  rewrite (@digits_padStart0 2) by (change (10 ^ Z.of_nat 2) with 100; lia).
  cbn [obind app]. rewrite expect_lit. cbn [obind].
  rewrite (@digits_padStart0 2) by (change (10 ^ Z.of_nat 2) with 100; lia).
  cbn [obind app]. rewrite expect_lit. cbn [obind].
  rewrite (@digits_padStart0 2) by (change (10 ^ Z.of_nat 2) with 100; lia).
  cbn [obind app].
  replace ((w / 3600000 <=? 23) && (w / 60000 mod 60 <=? 59)
           && (w / 1000 mod 60 <=? 59)) with true
    by (symmetry; rewrite !andb_true_iff, !Z.leb_le; lia).
  rewrite (@digits_padStart0 3) by (change (10 ^ Z.of_nat 3) with 1000; lia).
  cbn [obind]. rewrite Hmt, Hmk. f_equal.
  subst w. unfold Day, TimeWithinDay.
  pose proof (Z.div_mod t msPerDay ltac:(unfold msPerDay; lia)). lia.
Qed.

End IsoRoundTrip.

(* ================================================================= *)
(** ** More on the backend *)

Module ServerMore.
Import Js JsFacts Server.

Section WithEngine.
Context {engine : JsEngine}.

(** X1.  A location with a latitude or a longitude that is falsy, such as
    the zero of the equator or of the prime meridian, is rendered like an
    absent location. *)
Theorem falsy_coordinate_hides_location (l : Location) :
  (exists n, lat l = Some n /\ Number_truthy n = false) \/
  (exists n, lon l = Some n /\ Number_truthy n = false) ->
  locationInfo (Some l) = lit "User's location is not available.".
Proof.
  intros [[n [Hl Hn]] | [n [Hl Hn]]]; unfold locationInfo; rewrite Hl;
    cbn [truthy_coord]; rewrite Hn; [reflexivity|].
  now rewrite andb_false_r.
Qed.

(** X2.  When the upstream call succeeds and the content of its first
    choice is a non-empty string, the handler answers with status 200 and
    that string, whatever the other choices are; it has called the upstream
    model once and logged nothing. *)
Theorem model_text_is_relayed
    (groq : CompletionParams -> UpstreamResult) (req : ChatRequest)
    (c : ChatCompletion) (text : jsstring) (others : list Choice) :
  groq (completion_params req) = Resolved c ->
  choices c
  = {| ch_message := Some {| cm_content := Some text |} |} :: others ->
  text <> [] ->
  post_api_chat groq req =
    (Normal {| status := 200; body := BodyResponse text |},
     [UpstreamCall (completion_params req)]).
Proof.
  intros Hg Hc Ht. unfold post_api_chat, try_block. rewrite Hg.
  unfold response_text. rewrite Hc.
  apply truthy_string_nonempty in Ht. now rewrite Ht.
Qed.

Lemma response_text_nonempty (c : ChatCompletion) : response_text c <> [].
Proof.
  unfold response_text.
  destruct (choices c) as [|ch rest]; [discriminate|].
  destruct ch as [[cm|]]; [|discriminate].
  destruct cm as [[t|]]; [|discriminate].
  destruct t; discriminate.
Qed.

(** X3.  The answer follows the upstream call and nothing else: status 200
    with a response text, which is never empty, exactly when the call
    returned, and status 500 with the error body and one logged error
    exactly when it threw. *)
Theorem response_follows_upstream
    (groq : CompletionParams -> UpstreamResult) (req : ChatRequest) :
  (exists c text,
      groq (completion_params req) = Resolved c /\
      text <> [] /\
      post_api_chat groq req =
        (Normal {| status := 200; body := BodyResponse text |},
         [UpstreamCall (completion_params req)])) \/
  (exists m,
      groq (completion_params req) = Rejected m /\
      post_api_chat groq req =
        (Normal {| status := 500;
                   body := BodyError (lit "Failed to get response from AI") m |},
         [UpstreamCall (completion_params req);
          ConsoleError (lit "Error with Groq API:") m])).
Proof.
  unfold post_api_chat, try_block.
  destruct (groq (completion_params req)) as [c | m].
  - left. exists c, (response_text c).
    split; [reflexivity|]. split; [apply response_text_nonempty | reflexivity].
  - right. exists m. split; reflexivity.
Qed.
End WithEngine.

Lemma falsy_coordinate_hides_location_witness :
  @locationInfo Hosts.ist
     (Some (@Build_Location Hosts.ist (Some 0%Z) (Some 80%Z)))
  = lit "User's location is not available.".
Proof.
  apply (@falsy_coordinate_hides_location Hosts.ist).
  left. exists 0%Z. split; reflexivity.
Defined.

Lemma model_text_is_relayed_witness :
  let req := @Build_ChatRequest Hosts.ist (lit "Best flood-resistant rice?")
               (lit "English") None (Some (lit "2024-06-01T00:00:00Z")) in
  let first :=
    {| ch_message := Some {| cm_content := Some (lit "Try Swarna-Sub1.") |} |}
  in
  let second :=
    {| ch_message := Some {| cm_content := Some (lit "Other") |} |} in
  fst (@post_api_chat Hosts.ist
         (fun _ => Resolved {| choices := [first; second] |}) req)
  = Normal {| status := 200; body := BodyResponse (lit "Try Swarna-Sub1.") |}.
Proof.
  intros req first second.
  rewrite (@model_text_is_relayed Hosts.ist _ req
             {| choices := [first; second] |} (lit "Try Swarna-Sub1.")
             [second] eq_refl eq_refl).
  - reflexivity.
  - discriminate.
Defined.

End ServerMore.

(* ================================================================= *)
(** ** More on the client *)

Module ChatWindowSpec.
Import Js JsFacts Client ChatWindow Scenarios.

(** *** Removing a staged attachment *)

Lemma remove_nth_spec {A : Type} (l : list A) : forall i,
  remove_nth i l = firstn i l ++ skipn (S i) l.
Proof.
  induction l as [|x l IH]; intros [|i]; cbn [remove_nth firstn skipn app];
    try reflexivity.
  now rewrite IH.
Qed.

Lemma remove_nth_beyond {A : Type} (l : list A) : forall i,
  (List.length l <= i)%nat -> remove_nth i l = l.
Proof.
  induction l as [|x l IH]; intros [|i] H; cbn [remove_nth]; try reflexivity.
  - cbn in H. lia.
  - rewrite IH; [reflexivity | cbn in H; lia].
Qed.

(** X4.  Removing the staged attachment at an index within the list takes
    out exactly that one and keeps the others in their order; at an index
    beyond the list the state is unchanged.  Transcript, input, composing
    indicator and language are never touched. *)
Theorem removeAttachment_bounds (st : State) (index : nat) :
  ((index < List.length (attachedFiles st))%nat ->
   attachedFiles (removeAttachment st index)
   = firstn index (attachedFiles st) ++ skipn (S index) (attachedFiles st) /\
   S (List.length (attachedFiles (removeAttachment st index)))
   = List.length (attachedFiles st)) /\
  ((List.length (attachedFiles st) <= index)%nat ->
   removeAttachment st index = st) /\
  messages (removeAttachment st index) = messages st /\
  inputValue (removeAttachment st index) = inputValue st /\
  isTyping (removeAttachment st index) = isTyping st /\
  language (removeAttachment st index) = language st.
Proof.
  split; [|split; [|repeat split]].
  - intros H. cbn [removeAttachment attachedFiles].
    rewrite remove_nth_spec. split; [reflexivity|].
    rewrite length_app, length_firstn, length_skipn. lia.
  - intros H. unfold removeAttachment. rewrite remove_nth_beyond by exact H.
    now destruct st.
Qed.

(** *** Selecting files *)

(** X5.  Selecting files appends one attachment per file, in the order of
    the selection and after those already staged; each is an image exactly
    when the MIME type of its file starts with "image/", and has no preview
    yet.  Transcript, input and composing indicator are unchanged, and a
    null file list changes nothing. *)
Theorem handleFileSelect_appends (st : State) (fs : list File) :
  attachedFiles (handleFileSelect st (Some fs))
  = attachedFiles st ++ List.map newAttachment fs /\
  List.map file (attachedFiles (handleFileSelect st (Some fs)))
  = List.map file (attachedFiles st) ++ fs /\
  (forall a, In a (List.map newAttachment fs) ->
             preview a = None /\
             (type a = image <->
              startsWith (mime (file a)) (lit "image/") = true)) /\
  messages (handleFileSelect st (Some fs)) = messages st /\
  inputValue (handleFileSelect st (Some fs)) = inputValue st /\
  isTyping (handleFileSelect st (Some fs)) = isTyping st /\
  handleFileSelect st None = st.
Proof.
  split; [reflexivity|]. split.
  - cbn [handleFileSelect addAttachments attachedFiles].
    rewrite map_app, map_map. cbn [newAttachment file]. now rewrite map_id.
  - split; [|repeat split].
    intros a Ha. apply in_map_iff in Ha as [f [<- _]].
    cbn [newAttachment preview type file]. split; [reflexivity|].
    unfold attachmentType.
    destruct (startsWith (mime f) (lit "image/")); split; congruence.
Qed.

(** *** Trimmed text *)

Lemma trimStart_head (s : jsstring) (c : N) (r : jsstring) :
  trimStart s = c :: r -> isWhiteSpace c = false.
Proof.
  induction s as [|d s IH]; [discriminate|].
  cbn [trimStart]. destruct (isWhiteSpace d) eqn:Hd; [exact IH|].
  now intros [= <- _].
Qed.

Lemma trimStart_fixed (s : jsstring) :
  (forall c r, s = c :: r -> isWhiteSpace c = false) -> trimStart s = s.
Proof.
  destruct s as [|c r]; [reflexivity|]. intros H.
  cbn [trimStart]. now rewrite (H c r eq_refl).
Qed.

Lemma trimStart_snoc (s : jsstring) (c : N) :
  isWhiteSpace c = false -> exists x, trimStart (s ++ [c]) = x ++ [c].
Proof.
  intros Hc. induction s as [|d s IH]; cbn [app trimStart].
  - rewrite Hc. now exists [].
  - destruct (isWhiteSpace d); [exact IH|]. now exists (d :: s).
Qed.

Lemma trim_last (s r : jsstring) (c : N) :
  trim s = r ++ [c] -> isWhiteSpace c = false.
Proof.
  unfold trim, trimEnd. intros H.
  apply (f_equal (@rev N)) in H.
  rewrite rev_involutive, rev_app_distr in H. cbn [rev app] in H.
  exact (@trimStart_head _ _ _ H).
Qed.

Lemma trim_head (s r : jsstring) (c : N) :
  trim s = c :: r -> isWhiteSpace c = false.
Proof.
  unfold trim, trimEnd.
  destruct (trimStart s) as [|c0 a] eqn:E; [discriminate|].
  pose proof (@trimStart_head _ _ _ E) as Hc0.
  cbn [rev]. destruct (@trimStart_snoc (rev a) c0 Hc0) as [x ->].
  rewrite rev_app_distr. cbn [rev app]. now intros [= <- _].
Qed.

Lemma trim_idempotent (s : jsstring) : trim (trim s) = trim s.
Proof.
  assert (H1 : trimStart (trim s) = trim s)
    by (apply trimStart_fixed; intros c r; apply trim_head).
  unfold trim at 1. rewrite H1. unfold trimEnd.
  assert (H2 : trimStart (rev (trim s)) = rev (trim s)).
  { apply trimStart_fixed. intros c r Hr.
    apply (@trim_last s (rev r) c).
    apply (f_equal (@rev N)) in Hr. rewrite rev_involutive in Hr.
    exact Hr. }
  now rewrite H2, rev_involutive.
Qed.

Section WithLocation.
Variable Loc : Type.
Variable location : Loc.

(** *** What every run keeps true *)

Lemma handleSendMessage_outcome (now : Z) (st : State) (text : jsstring) :
  handleSendMessage location now st text = (st, None) \/
  exists u req,
    handleSendMessage location now st text =
      ({| messages := messages st ++ [u];
          inputValue := [];
          isTyping := true;
          language := language st;
          attachedFiles := [] |}, Some req) /\
    isBot u = false /\ rb_language req = language st.
Proof.
  unfold handleSendMessage.
  destruct (negb (truthy_string (trim text))
            && (List.length (attachedFiles st) =? 0)%nat).
  - left. reflexivity.
  - right. do 2 eexists. split; [reflexivity|]. split; reflexivity.
Qed.

Lemma Button_onClick_sends now st :
  @sends Loc location st now (Button_onClick location now st).
Proof.
  unfold Button_onClick. destruct (sendDisabled st); [now left|].
  right. now eexists.
Qed.

Lemma Input_onKeyDown_sends now st key shiftKey :
  @sends Loc location st now (Input_onKeyDown location now st key shiftKey).
Proof.
  unfold Input_onKeyDown.
  destruct (jsstring_eqb key (lit "Enter") && negb shiftKey); [|now left].
  right. now eexists.
Qed.

Lemma Suggested_onClick_sends now st i :
  @sends Loc location st now (Suggested_onClick location now st i).
Proof.
  unfold Suggested_onClick. destruct (suggestionsShown st); [|now left].
  destruct (nth_error SUGGESTED_QUESTIONS i) as [q|]; [|now left].
  right. now eexists.
Qed.

Lemma sends_outcome st now r :
  @sends Loc location st now r ->
  r = (st, None) \/
  exists u req,
    r = ({| messages := messages st ++ [u];
            inputValue := [];
            isTyping := true;
            language := language st;
            attachedFiles := [] |}, Some req) /\
    isBot u = false /\ rb_language req = language st.
Proof.
  intros [-> | [text ->]]; [now left|]. apply handleSendMessage_outcome.
Qed.

Lemma after_send_coherent (w : World Loc) now r :
  @sends Loc location (ui w) now r -> coherent w -> coherent (after_send w r).
Proof.
  intros Hs [H1 [H2 [H3 H4]]].
  destruct (@sends_outcome (ui w) now r Hs) as [-> | [u [req [-> _]]]];
    unfold coherent, after_send;
    cbn [fst snd ui outbox inflight messages isTyping].
  - repeat split; assumption.
  - rewrite !length_app. cbn [List.length]. repeat split; try lia. 
Qed.

Lemma step_coherent (w : World Loc) (e : Event) :
  coherent w -> coherent (step location w e).
Proof.
  intros Hc.
  destruct e as [now | now key shiftKey | now i | v | l | new | index
                | now ex]; cbn [step].
  - eapply after_send_coherent; [apply Button_onClick_sends | exact Hc].
  - eapply after_send_coherent; [apply Input_onKeyDown_sends | exact Hc].
  - eapply after_send_coherent; [apply Suggested_onClick_sends | exact Hc].
  - exact Hc.
  - exact Hc.
  - exact Hc.
  - exact Hc.
  - destruct Hc as [H1 [H2 [H3 H4]]]. unfold coherent.
    destruct (inflight w) as [|n] eqn:E.
    + rewrite E. repeat split; assumption.
    + cbn [ui outbox inflight handleSendMessage_settle messages isTyping].
      rewrite length_app. cbn [List.length].
      repeat split; try lia; try discriminate.
Qed.

Lemma run_coherent (events : list Event) : forall w : World Loc,
  coherent w -> coherent (run location w events).
Proof.
  induction events as [|e events IH]; intros w Hc; cbn [run fold_left].
  - exact Hc.
  - apply IH, step_coherent, Hc.
Qed.

Lemma initialWorld_coherent (now : Z) : coherent (initialWorld Loc now).
Proof.
  unfold coherent. cbn. repeat split; try lia; discriminate.
Qed.

(** X7.  In every run from the initial state, once no exchange is in
    flight the composing indicator is off: no outcome of an exchange leaves
    it on. *)
Theorem indicator_clears_with_last_exchange (now : Z) (events : list Event) :
  inflight (run location (initialWorld Loc now) events) = 0%nat ->
  isTyping (ui (run location (initialWorld Loc now) events)) = false.
Proof.
  intros H0.
  destruct (@run_coherent events _ (initialWorld_coherent now))
    as [_ [_ [H3 _]]].
  destruct (isTyping (ui (run location (initialWorld Loc now) events)));
    [|reflexivity].
  specialize (H3 eq_refl). lia.
Qed.

(** X8.  In every run from the initial state the transcript holds the
    greeting, one user message for each request sent, and one bot message
    for each exchange that has settled; no more exchanges are in flight
    than requests were sent. *)
Theorem transcript_accounting (now : Z) (events : list Event) :
  let w := run location (initialWorld Loc now) events in
  (List.length (messages (ui w)) + inflight w
   = 1 + 2 * List.length (outbox w))%nat /\
  (inflight w <= List.length (outbox w))%nat.
Proof.
  intros w.
  destruct (@run_coherent events _ (initialWorld_coherent now))
    as [H1 [H2 _]].
  split; assumption.
Qed.

(** X9.  In every run from the initial state, once a request has been sent
    the suggested questions are no longer shown, and a click on one does
    nothing. *)
Theorem suggestions_only_before_first_send (now : Z) (events : list Event) :
  outbox (run location (initialWorld Loc now) events) <> [] ->
  suggestionsShown (ui (run location (initialWorld Loc now) events)) = false /\
  forall now' i,
    step location (run location (initialWorld Loc now) events)
         (ClickSuggested now' i)
    = run location (initialWorld Loc now) events.
Proof.
  intros Hout.
  destruct (@run_coherent events _ (initialWorld_coherent now))
    as [H1 [H2 [H3 H4]]].
  set (w := run location (initialWorld Loc now) events) in *.
  assert (Hk : (1 <= List.length (outbox w))%nat)
    by (destruct (outbox w); [congruence | cbn; lia]).
  assert (Hs : suggestionsShown (ui w) = false).
  { unfold suggestionsShown.
    destruct (Nat.leb_spec (List.length (messages (ui w))) 2) as [Hle|];
      [|reflexivity].
    cbn [andb]. rewrite H4 by lia. reflexivity. }
  split; [exact Hs|].
  intros now' i. cbn [step]. unfold Suggested_onClick. rewrite Hs.
  unfold after_send. cbn [fst snd]. now destruct w.
Qed.

(** X10.  The text of the user message a send appends is the trimmed
    input: it neither starts nor ends with white space, trimming it again
    changes nothing, and without attachments it is, character for
    character, the message sent to the backend. *)
Theorem user_text_is_trimmed
    (now : Z) (st st' : State) (text : jsstring) (req : RequestBody Loc) :
  handleSendMessage location now st text = (st', Some req) ->
  exists u,
    messages st' = messages st ++ [u] /\
    Client.text u = trim text /\
    (forall c r, Client.text u = c :: r -> isWhiteSpace c = false) /\
    (forall r c, Client.text u = r ++ [c] -> isWhiteSpace c = false) /\
    trim (Client.text u) = Client.text u /\
    (attachedFiles st = [] -> rb_message req = Client.text u).
Proof.
  unfold handleSendMessage.
  destruct (negb (truthy_string (trim text))
            && (List.length (attachedFiles st) =? 0)%nat); [discriminate|].
  intros [= <- <-]. eexists. split; [reflexivity|].
  cbn [Client.text rb_message].
  split; [reflexivity|].
  split; [intros c r; apply trim_head|].
  split; [intros r c; apply trim_last|].
  split; [apply trim_idempotent|].
  intros Ha. unfold messageText. now rewrite Ha.
Qed.

(** *** Languages *)

Lemma fullLang_offered (b : jsstring) : offeredLanguage (fullLang b).
Proof.
  unfold fullLang, offeredLanguage.
  destruct (jsstring_eqb b (lit "En")); [now left|].
  destruct (jsstring_eqb b (lit "Hi")); [right; now left | right; now right].
Qed.

Lemma step_speaks_offered (w : World Loc) (e : Event) :
  rendered e -> @speaks_offered Loc w ->
  @speaks_offered Loc (step location w e).
Proof.
  intros He [Hl Ho].
  assert (Hsend : forall now r, @sends Loc location (ui w) now r ->
                                @speaks_offered Loc (after_send w r)).
  { intros now r Hs.
    destruct (@sends_outcome (ui w) now r Hs)
      as [-> | [u [req [-> [_ Hreq]]]]];
      unfold speaks_offered, after_send; cbn [fst snd ui outbox language].
    - split; assumption.
    - split; [exact Hl|]. apply Forall_app. split; [exact Ho|].
      constructor; [now rewrite Hreq | constructor]. }
  destruct e as [now | now key shiftKey | now i | v | l | new | index
                | now ex]; cbn [step].
  - eapply Hsend, Button_onClick_sends.
  - eapply Hsend, Input_onKeyDown_sends.
  - eapply Hsend, Suggested_onClick_sends.
  - split; assumption.
  - destruct He as [b [_ ->]]. split; [apply fullLang_offered | exact Ho].
  - split; assumption.
  - split; assumption.
  - destruct (inflight w); split; assumption.
Qed.

(** X11.  In every run from the initial state in which languages are
    selected through the buttons, the selected language and the language of
    every request sent is English, Hindi or Tamil. *)
Theorem requests_carry_offered_languages (now : Z) (events : list Event) :
  Forall rendered events ->
  offeredLanguage (language (ui (run location (initialWorld Loc now) events)))
  /\ Forall (fun r => offeredLanguage (rb_language r))
            (outbox (run location (initialWorld Loc now) events)).
Proof.
  intros Hev.
  assert (H : forall w, @speaks_offered Loc w ->
                        @speaks_offered Loc (run location w events)).
  { induction Hev as [|e events He _ IH]; intros w Hw; cbn [run fold_left].
    - exact Hw.
    - apply IH, step_speaks_offered; assumption. }
  apply H. split; [left; reflexivity | constructor].
Qed.
(** *** Files on their way *)

(** X6.  After files were selected, a send, even with blank text, goes
    out: the user message carries every staged attachment, the old ones and
    the new ones in order, the staging area and the input are emptied, and
    the request names the same attachments. *)
Theorem selected_files_travel_with_the_message
    (now : Z) (st : State) (fs : list File) (text : jsstring) :
  fs <> [] ->
  exists st' req user,
    handleSendMessage location now (handleFileSelect st (Some fs)) text
    = (st', Some req) /\
    messages st' = messages st ++ [user] /\
    attachments user
    = Some (attachedFiles st ++ List.map newAttachment fs) /\
    attachedFiles st' = [] /\ inputValue st' = [] /\ isTyping st' = true /\
    rb_message req
    = messageText text (attachedFiles st ++ List.map newAttachment fs).
Proof.
  intros Hfs. unfold handleSendMessage.
  cbn [handleFileSelect addAttachments attachedFiles messages language].
  assert (Hlen : (0 < List.length (attachedFiles st
                                   ++ List.map newAttachment fs))%nat).
  { rewrite length_app, length_map. destruct fs; [congruence | cbn; lia]. }
  replace (List.length (attachedFiles st ++ List.map newAttachment fs) =? 0)%nat
    with false by (symmetry; apply Nat.eqb_neq; lia).
  replace (0 <? List.length (attachedFiles st ++ List.map newAttachment fs))%nat
    with true by (symmetry; apply Nat.ltb_lt; lia).
  rewrite andb_false_r.
  do 3 eexists. split; [reflexivity|]. cbn. repeat split.
Qed.

(** *** One exchange at a time, the Enter key apart *)

Lemma after_send_one_at_a_time (w : World Loc) now text :
  isTyping (ui w) = false -> one_at_a_time w ->
  one_at_a_time (after_send w (handleSendMessage location now (ui w) text)).
Proof.
  intros Ht [H1 H2].
  assert (H0 : inflight w = 0%nat).
  { destruct (inflight w) as [|[|n]]; [reflexivity | | lia].
    destruct H2 as [_ H2]. rewrite H2 in Ht by reflexivity. discriminate. }
  destruct (handleSendMessage_outcome now (ui w) text)
    as [-> | [u [req [-> _]]]];
    unfold one_at_a_time, after_send; cbn [fst snd ui inflight isTyping].
  - split; assumption.
  - rewrite H0. split; [lia|]. split; reflexivity.
Qed.

Lemma step_one_at_a_time (w : World Loc) (e : Event) :
  no_enter e -> one_at_a_time w -> one_at_a_time (step location w e).
Proof.
  intros He Hw.
  destruct e as [now | now key shiftKey | now i | v | l | new | index
                | now ex]; cbn [step]; try exact Hw.
  - unfold Button_onClick, sendDisabled.
    destruct (isTyping (ui w)) eqn:Ht.
    + rewrite orb_true_r. unfold after_send. cbn [fst snd].
      now destruct w.
    + rewrite orb_false_r.
      destruct (negb (truthy_string (trim (inputValue (ui w))))
                && (List.length (attachedFiles (ui w)) =? 0)%nat).
      * unfold after_send. cbn [fst snd]. now destruct w.
      * now apply after_send_one_at_a_time.
  - unfold Input_onKeyDown. cbn [no_enter] in He. rewrite He.
    unfold after_send. cbn [fst snd]. now destruct w.
  - unfold Suggested_onClick, suggestionsShown.
    destruct (isTyping (ui w)) eqn:Ht.
    + rewrite andb_false_r. unfold after_send. cbn [fst snd].
      now destruct w.
    + destruct ((List.length (messages (ui w)) <=? 2)%nat && negb false).
      * destruct (nth_error SUGGESTED_QUESTIONS i) as [q|].
        -- now apply after_send_one_at_a_time.
        -- unfold after_send. cbn [fst snd]. now destruct w.
      * unfold after_send. cbn [fst snd]. now destruct w.
  - destruct Hw as [H1 H2]. unfold one_at_a_time.
    destruct (inflight w) as [|n] eqn:E.
    + rewrite E. split; assumption.
    + cbn [ui inflight handleSendMessage_settle isTyping].
      split; [lia|]. split; [discriminate | lia].
Qed.

(** X12.  In every run from the initial state without an Enter key in the
    input, at most one exchange is in flight, and the composing indicator
    is on exactly while one is: the send button and the suggested questions
    never start a second exchange. *)
Theorem one_exchange_without_enter (now : Z) (events : list Event) :
  Forall no_enter events ->
  (inflight (run location (initialWorld Loc now) events) <= 1)%nat /\
  (isTyping (ui (run location (initialWorld Loc now) events)) = true <->
   inflight (run location (initialWorld Loc now) events) = 1%nat).
Proof.
  intros Hev.
  assert (H : forall w : World Loc,
             one_at_a_time w -> one_at_a_time (run location w events)).
  { induction Hev as [|e events He _ IH]; intros w Hw; cbn [run fold_left].
    - exact Hw.
    - apply IH, step_one_at_a_time; assumption. }
  apply H. unfold one_at_a_time. cbn. split; [lia|]. split; [discriminate|lia].
Qed.
End WithLocation.

(** *** The theorems at concrete states *)

Lemma removeAttachment_bounds_witness :
  attachedFiles
    (removeAttachment
       (addAttachments (initialState 0) [soil_report; leaf_photo]) 0)
  = [leaf_photo].
Proof.
  rewrite (proj1 (proj1 (@removeAttachment_bounds
                           (addAttachments (initialState 0)
                              [soil_report; leaf_photo]) 0)
                    ltac:(cbn; lia))).
  reflexivity.
Defined.

Lemma handleFileSelect_appends_witness :
  type (newAttachment (file leaf_photo)) = image.
Proof.
  apply (proj2 (proj1 (proj2 (proj2 (@handleFileSelect_appends
                                       (initialState 0) [file leaf_photo])))
                  (newAttachment (file leaf_photo))
                  (or_introl eq_refl))).
  reflexivity.
Defined.

Lemma selected_files_travel_with_the_message_witness :
  exists st' req user,
    handleSendMessage here 1000
      (handleFileSelect (initialState 0) (Some [file soil_report])) []
    = (st', Some req) /\
    attachments user = Some [newAttachment (file soil_report)] /\
    attachedFiles st' = [].
Proof.
  destruct (@selected_files_travel_with_the_message _ here 1000
              (initialState 0) [file soil_report] [])
    as [st' [req [user [E [_ [Ha [Hs _]]]]]]].
  - discriminate.
  - exists st', req, user. split; [exact E|]. split; [exact Ha | exact Hs].
Defined.

Lemma indicator_clears_with_last_exchange_witness :
  isTyping
    (ui (run here (initialWorld (option (Z * Z)) 0)
           [ ChangeInput (lit "Will it rain tomorrow?");
             KeyDown 1000 (lit "Enter") false;
             Settle 2000 NetworkError ]))
  = false.
Proof.
  apply (@indicator_clears_with_last_exchange _ here 0
           [ ChangeInput (lit "Will it rain tomorrow?");
             KeyDown 1000 (lit "Enter") false;
             Settle 2000 NetworkError ]).
  reflexivity.
Defined.

Lemma suggestions_only_before_first_send_witness :
  suggestionsShown
    (ui (run here (initialWorld (option (Z * Z)) 0)
           [ ChangeInput (lit "Will it rain tomorrow?");
             KeyDown 1000 (lit "Enter") false ]))
  = false.
Proof.
  apply (@suggestions_only_before_first_send _ here 0
           [ ChangeInput (lit "Will it rain tomorrow?");
             KeyDown 1000 (lit "Enter") false ]).
  vm_compute. discriminate.
Defined.

Lemma user_text_is_trimmed_witness :
  exists u,
    messages (fst (handleSendMessage here 1000 (initialState 0)
                     (lit "  Will it rain tomorrow? ")))
    = messages (initialState 0) ++ [u] /\
    text u = lit "Will it rain tomorrow?".
Proof.
  destruct (@user_text_is_trimmed _ here 1000 (initialState 0)
              (fst (handleSendMessage here 1000 (initialState 0)
                      (lit "  Will it rain tomorrow? ")))
              (lit "  Will it rain tomorrow? ")
              {| rb_message := lit "Will it rain tomorrow?";
                 rb_language := lit "English";
                 rb_location := here;
                 rb_date := Js.toISOString 1000 |}
              ltac:(vm_compute; reflexivity))
    as [u [Hm [Ht _]]].
  exists u. split; [exact Hm|]. rewrite Ht. vm_compute. reflexivity.
Defined.

Lemma requests_carry_offered_languages_witness :
  List.map (@rb_language _)
    (outbox (run here (initialWorld (option (Z * Z)) 0)
               [ SelectLanguage (fullLang (lit "Hi"));
                 ChangeInput (lit "Will it rain tomorrow?");
                 KeyDown 1000 (lit "Enter") false ]))
  = [lit "Hindi"] /\
  Forall (fun r => offeredLanguage (rb_language r))
    (outbox (run here (initialWorld (option (Z * Z)) 0)
               [ SelectLanguage (fullLang (lit "Hi"));
                 ChangeInput (lit "Will it rain tomorrow?");
                 KeyDown 1000 (lit "Enter") false ])).
Proof.
  split; [vm_compute; reflexivity|].
  apply (@requests_carry_offered_languages _ here 0
           [ SelectLanguage (fullLang (lit "Hi"));
             ChangeInput (lit "Will it rain tomorrow?");
             KeyDown 1000 (lit "Enter") false ]).
  repeat constructor.
  exists (lit "Hi"). split; [right; left; reflexivity | reflexivity].
Defined.

Lemma one_exchange_without_enter_witness :
  (inflight
     (run here (initialWorld (option (Z * Z)) 0)
        [ ChangeInput (lit "Will it rain tomorrow?"); ClickSend 1000;
          ChangeInput (lit "Current Wheat prices?"); ClickSend 2000 ])
   <= 1)%nat.
Proof.
  apply (@one_exchange_without_enter _ here 0
           [ ChangeInput (lit "Will it rain tomorrow?"); ClickSend 1000;
             ChangeInput (lit "Current Wheat prices?"); ClickSend 2000 ]).
  repeat constructor.
Defined.

End ChatWindowSpec.

(* ================================================================= *)
(** ** The page *)

Module ChatPageSpec.
Import Js JsFacts ChatPage.

Section WithEngine.
Context {engine : JsEngine}.
Variable Data : Type.

Lemma fetchWeatherData_cases
    (API_KEY : option jsstring) (fetch : jsstring -> WeatherReply Data)
    (latitude longitude : num) (st : PageState Data) :
  (exists key,
      API_KEY = Some key /\ key <> [] /\
      snd (fetchWeatherData API_KEY fetch latitude longitude st)
      = [Fetch (API_URL key latitude longitude)] /\
      ((exists data,
           fetch (API_URL key latitude longitude)
           = WeatherResponse true (inl data) /\
           fst (fetchWeatherData API_KEY fetch latitude longitude st)
           = setIsLoadingWeather (setWeatherData st data) false) \/
       (exists m,
           fst (fetchWeatherData API_KEY fetch latitude longitude st)
           = setIsLoadingWeather (setWeatherError st m) false))) \/
  ((API_KEY = None \/ API_KEY = Some []) /\
   fetchWeatherData API_KEY fetch latitude longitude st
   = (setIsLoadingWeather st false,
      [ConsoleWarn (lit "Weather API Key is missing")])).
Proof.
  unfold fetchWeatherData.
  destruct API_KEY as [[|c key]|]; cbn [truthy_string].
  - right. split; [now right | reflexivity].
  - left. exists (c :: key). split; [reflexivity|]. split; [discriminate|].
    cbn [snd fst]. split; [reflexivity|].
    destruct (fetch (API_URL (c :: key) latitude longitude))
      as [m | [|] [data | m]].
    + right. now exists m.
    + left. now exists data.
    + right. now exists m.
    + right. now eexists.
    + right. now eexists.
  - right. split; [now left | reflexivity].
Qed.

(** X13.  However the geolocation, the API key and the weather request
    turn out, the effect ends with the loading flag cleared and with at
    most one of forecast and error set; a forecast is set only when a
    position was reported, a key is configured and the reply was ok with a
    body that parsed. *)
Theorem useEffect_settles
    (geolocation : Geolocation) (API_KEY : option jsstring)
    (fetch : jsstring -> WeatherReply Data) :
  isLoadingWeather (fst (useEffect geolocation API_KEY fetch)) = false /\
  (weatherData (fst (useEffect geolocation API_KEY fetch)) = None \/
   weatherError (fst (useEffect geolocation API_KEY fetch)) = None) /\
  (forall data,
      weatherData (fst (useEffect geolocation API_KEY fetch)) = Some data ->
      exists latitude longitude key,
        geolocation = Located latitude longitude /\
        API_KEY = Some key /\ key <> [] /\
        fetch (API_URL key latitude longitude)
        = WeatherResponse true (inl data)).
Proof.
  destruct geolocation as [| |la lo]; cbn [useEffect fst].
  - repeat split; [now left | discriminate].
  - repeat split; [now left | discriminate].
  - destruct (fetchWeatherData_cases API_KEY fetch la lo
                (setLocation (initialPage Data)
                   {| Server.lat := Some la; Server.lon := Some lo |}))
      as [[key [Hk [Hne [_ [[data [Hf ->]] | [m ->]]]]]] | [_ ->]];
      cbn [fst isLoadingWeather weatherData weatherError setIsLoadingWeather
           setWeatherData setWeatherError setLocation initialPage].
    + repeat split; [now right|]. intros d [= <-].
      now exists la, lo, key.
    + repeat split; [now left | discriminate].
    + repeat split; [now left | discriminate].
Qed.

(** X14.  The location handed to the chat is the reported position,
    whatever becomes of the API key and of the weather request; without a
    position there is no location, no request is made, and the error names
    the cause. *)
Theorem location_follows_geolocation
    (geolocation : Geolocation) (API_KEY : option jsstring)
    (fetch : jsstring -> WeatherReply Data) :
  (forall latitude longitude,
      geolocation = Located latitude longitude ->
      location (fst (useEffect geolocation API_KEY fetch))
      = Some {| Server.lat := Some latitude; Server.lon := Some longitude |}) /\
  (geolocation = Unsupported ->
   useEffect geolocation API_KEY fetch
   = ({| location := None; weatherData := None; isLoadingWeather := false;
         weatherError :=
           Some (lit "Geolocation is not supported by your browser.") |},
      [])) /\
  (geolocation = Denied ->
   useEffect geolocation API_KEY fetch
   = ({| location := None; weatherData := None; isLoadingWeather := false;
         weatherError := Some (lit "Location access denied.") |},
      [])).
Proof.
  split; [|split].
  - intros la lo ->. cbn [useEffect].
    destruct (fetchWeatherData_cases API_KEY fetch la lo
                (setLocation (initialPage Data)
                   {| Server.lat := Some la; Server.lon := Some lo |}))
      as [[key [_ [_ [_ [[data [_ ->]] | [m ->]]]]]] | [_ ->]];
      reflexivity.
  - intros ->. reflexivity.
  - intros ->. reflexivity.
Qed.

(** X15.  The weather service is asked at most once, only after a position
    was reported and with a configured key, and the address asked carries
    both coordinates; when the key is undefined or empty nothing is asked
    and neither forecast nor error is set. *)
Theorem weather_request
    (geolocation : Geolocation) (API_KEY : option jsstring)
    (fetch : jsstring -> WeatherReply Data) :
  (List.length (fetched (snd (useEffect geolocation API_KEY fetch))) <= 1)%nat
  /\
  (forall url,
      In url (fetched (snd (useEffect geolocation API_KEY fetch))) ->
      exists latitude longitude key,
        geolocation = Located latitude longitude /\
        API_KEY = Some key /\ key <> [] /\
        url = API_URL key latitude longitude /\
        Substring (lit "&q=" ++ Number_toString latitude ++ lit "," ++
                   Number_toString longitude) url) /\
  ((API_KEY = None \/ API_KEY = Some []) ->
   fetched (snd (useEffect geolocation API_KEY fetch)) = [] /\
   weatherData (fst (useEffect geolocation API_KEY fetch)) = None /\
   (forall latitude longitude,
       geolocation = Located latitude longitude ->
       weatherError (fst (useEffect geolocation API_KEY fetch)) = None)).
Proof.
  destruct geolocation as [| |la lo]; cbn [useEffect].
  - cbn. split; [lia|]. split; [intros url []|].
    intros _. repeat split. intros la lo [=].
  - cbn. split; [lia|]. split; [intros url []|].
    intros _. repeat split. intros la lo [=].
  - destruct (fetchWeatherData_cases API_KEY fetch la lo
                (setLocation (initialPage Data)
                   {| Server.lat := Some la; Server.lon := Some lo |}))
      as [[key [Hk [Hne [Hs _]]]] | [Hk Hs]].
    + rewrite Hs. cbn [fetched flat_map app List.length In].
      split; [lia|]. split.
      * intros url [<- | []]. exists la, lo, key.
        repeat split; try assumption.
        unfold API_URL.
        exists (lit "https://api.weatherapi.com/v1/forecast.json?key=" ++ key),
               (lit "&days=5&alerts=yes").
        now rewrite <- !app_assoc.
      * intros [Hn | Hn]; rewrite Hn in Hk; [discriminate|].
        injection Hk as <-. now elim Hne.
    + rewrite Hs. cbn [fst snd fetched flat_map app List.length In].
      split; [lia|]. split; [intros url []|].
      intros _. repeat split.
Qed.
End WithEngine.

Lemma useEffect_settles_witness :
  let fetch := fun _ : jsstring => @WeatherResponse Z true (inl 31%Z) in
  weatherData
    (fst (@useEffect Hosts.ist Z (@Located Hosts.ist 13%Z 80%Z)
            (Some (lit "k3y")) fetch))
  = Some 31%Z /\
  fetch (@API_URL Hosts.ist (lit "k3y") 13%Z 80%Z)
  = @WeatherResponse Z true (inl 31%Z).
Proof.
  intros fetch. split; [reflexivity|].
  destruct (proj2 (proj2 (@useEffect_settles Hosts.ist Z
                            (@Located Hosts.ist 13%Z 80%Z)
                            (Some (lit "k3y")) fetch)) 31%Z eq_refl)
    as [la [lo [key [Hg [Hk [_ Hf]]]]]].
  injection Hg as <- <-. injection Hk as <-. exact Hf.
Defined.

Lemma location_follows_geolocation_witness :
  Server.lat
    (match location
             (fst (@useEffect Hosts.ist Z (@Located Hosts.ist 13%Z 80%Z) None
                     (fun _ => WeatherRejected Z (lit "offline"))))
     with
     | Some l => l
     | None => @Server.Build_Location Hosts.ist None None
     end)
  = Some 13%Z.
Proof.
  rewrite (proj1 (@location_follows_geolocation Hosts.ist Z
                    (@Located Hosts.ist 13%Z 80%Z) None
                    (fun _ => WeatherRejected Z (lit "offline")))
             13%Z 80%Z eq_refl).
  reflexivity.
Defined.

Lemma weather_request_witness :
  fetched
    (snd (@useEffect Hosts.ist Z (@Located Hosts.ist 13%Z 80%Z) (Some [])
            (fun _ => WeatherRejected Z (lit "offline"))))
  = [].
Proof.
  apply (proj2 (proj2 (@weather_request Hosts.ist Z
                         (@Located Hosts.ist 13%Z 80%Z) (Some [])
                         (fun _ => WeatherRejected Z (lit "offline"))))).
  right. reflexivity.
Defined.

End ChatPageSpec.

(* ================================================================= *)
(** ** A whole turn, client and backend *)

Module EndToEnd.
Import Js JsFacts IsoRoundTrip Wire.

Section WithEngine.
Context {engine : JsEngine}.

Lemma sent_request
    (location : option Server.Location) (now : Z) (st st1 : Client.State)
    (text : jsstring) (rb : Client.RequestBody (option Server.Location)) :
  Client.handleSendMessage location now st text = (st1, Some rb) ->
  rb = {| Client.rb_message :=
            Client.messageText text (Client.attachedFiles st);
          Client.rb_language := Client.language st;
          Client.rb_location := location;
          Client.rb_date := toISOString now |} /\
  st1 = {| Client.messages :=
             Client.messages st ++
             [ {| Client.id := integer_toString now;
                  Client.text := trim text;
                  Client.isBot := false;
                  Client.timestamp := now;
                  Client.attachments :=
                    if (0 <? List.length (Client.attachedFiles st))%nat
                    then Some (Client.attachedFiles st) else None |} ];
           Client.inputValue := [];
           Client.isTyping := true;
           Client.language := Client.language st;
           Client.attachedFiles := [] |}.
Proof.
  unfold Client.handleSendMessage.
  destruct (negb (truthy_string (trim text))
            && (List.length (Client.attachedFiles st) =? 0)%nat);
    [discriminate|].
  intros [= <- <-]. split; reflexivity.
Qed.

(** X16.  The date a client puts into a request, at any instant of the
    years 0 to 9999, is read back by the backend as that instant: the date
    field of the prompt is its long date in the time zone of the host. *)
Theorem client_date_is_rendered
    (location : option Server.Location) (now : Z) (st st1 : Client.State)
    (text : jsstring) (rb : Client.RequestBody (option Server.Location)) :
  (-62167219200000 <= now <= 253402300799999)%Z ->
  Client.handleSendMessage location now st text = (st1, Some rb) ->
  Date_parse (Client.rb_date rb) = Some now /\
  Server.formattedDate (Server.date (received rb))
  = longDate_enUS (now + LocalTZA now).
Proof.
  intros Hnow Hsend.
  destruct (@sent_request location now st st1 text rb Hsend) as [-> _].
  cbn [received Server.date Client.rb_date].
  pose proof (@iso_parse_toISOString now Hnow) as Hiso.
  assert (Hp : Date_parse (toISOString now) = Some now)
    by (unfold Date_parse; now rewrite Hiso).
  split; [exact Hp|].
  unfold Server.formattedDate, toLocaleDateString.
  rewrite Hp.
  assert (Ht : truthy_string (toISOString now) = true).
  { apply truthy_string_nonempty. intros E. rewrite E in Hiso. discriminate. }
  now rewrite Ht.
Qed.

(** X17.  What the client sends is what the model is asked: the backend
    calls the upstream model once, with the trimmed text and the names of
    the attachments as the last message, the language selected in the
    client in the two turns before it, and the prompt composed from the
    location of the page and the date of the send. *)
Theorem upstream_sees_the_client_message
    (groq : Server.CompletionParams -> Server.UpstreamResult)
    (location : option Server.Location) (now : Z) (st st1 : Client.State)
    (text : jsstring) (rb : Client.RequestBody (option Server.Location)) :
  Client.handleSendMessage location now st text = (st1, Some rb) ->
  exists params,
    Server.upstream_calls (snd (Server.post_api_chat groq (received rb)))
    = [params] /\
    List.map Server.content (Server.cp_messages params) =
      [ Server.createSystemPrompt location (Some (toISOString now));
        lit "I am an Indian Farmer. My preferred language is: "
          ++ Client.language st ++ lit ".";
        lit "Namaste! I am ready to help you in "
          ++ Client.language st ++ lit ".";
        Client.messageText text (Client.attachedFiles st) ].
Proof.
  intros Hsend.
  destruct (@sent_request location now st st1 text rb Hsend) as [-> _].
  eexists. split.
  - unfold Server.post_api_chat, Server.try_block.
    destruct (groq _); reflexivity.
  - reflexivity.
Qed.

(** X18.  A turn that sends ends with the user message and one bot message
    appended, the input and the staged attachments empty and the composing
    indicator off.  The bot message shows the text of the model when the
    upstream call returned, and the fixed apology when it threw: the
    message of the upstream error never reaches the transcript. *)
Theorem turn_outcome
    (groq : Server.CompletionParams -> Server.UpstreamResult)
    (location : option Server.Location) (now now' : Z) (st : Client.State)
    (text : jsstring) :
  trim text <> [] \/ Client.attachedFiles st <> [] ->
  exists st2 rb user bot,
    turn groq location now now' st text = Some st2 /\
    snd (Client.handleSendMessage location now st text) = Some rb /\
    Client.messages st2 = Client.messages st ++ [user; bot] /\
    Client.isBot user = false /\ Client.isBot bot = true /\
    Client.isTyping st2 = false /\
    Client.inputValue st2 = [] /\ Client.attachedFiles st2 = [] /\
    (forall completion,
        groq (Server.completion_params (received rb))
        = Server.Resolved completion ->
        Client.text bot = Server.response_text completion) /\
    (forall m,
        groq (Server.completion_params (received rb)) = Server.Rejected m ->
        Client.text bot = Client.fallback_text).
Proof.
  intros Hne.
  pose proof (@ClientSpec.handleSendMessage_sends _ location now st text Hne)
    as Hsend.
  unfold turn. rewrite Hsend. cbn [snd].
  set (rb := {| Client.rb_message :=
                  Client.messageText text (Client.attachedFiles st);
                Client.rb_language := Client.language st;
                Client.rb_location := location;
                Client.rb_date := toISOString now |}).
  unfold Server.post_api_chat, Server.try_block.
  destruct (groq (Server.completion_params (received rb))) as [c | m] eqn:Hg;
    cbn [fst]; do 4 eexists;
    (split; [reflexivity|]); (split; [reflexivity|]);
    unfold Client.handleSendMessage_settle;
    cbn [Client.messages Client.isTyping Client.inputValue
         Client.attachedFiles];
    (split; [now rewrite <- app_assoc|]).
  - unfold reply. cbn [Server.status Server.body].
    change ((200 <=? 200)%Z && (200 <=? 299)%Z) with true.
    cbn [Client.botMessage Client.isBot Client.text].
    do 5 (split; [reflexivity|]). split.
    + intros completion E. assert (c = completion) by congruence.
      now subst.
    + intros m' E. congruence.
  - unfold reply. cbn [Server.status Server.body].
    change ((200 <=? 500)%Z && (500 <=? 299)%Z) with false.
    cbn [Client.botMessage Client.isBot Client.text].
    do 5 (split; [reflexivity|]). split.
    + intros completion E. congruence.
    + intros m' _. reflexivity.
Qed.
End WithEngine.

Lemma client_date_is_rendered_witness :
  exists st1 rb,
    Client.handleSendMessage
      (Some (@Server.Build_Location Hosts.ist (Some 13%Z) (Some 80%Z)))
      1717200000123 (Client.initialState 0) (lit "Will it rain tomorrow?")
    = (st1, Some rb) /\
    @Server.formattedDate Hosts.ist (@Server.date Hosts.ist (received rb))
    = lit "Saturday, June 1, 2024".
Proof.
  do 2 eexists. split; [reflexivity|].
  rewrite (proj2 (@client_date_is_rendered Hosts.ist _ 1717200000123
                    (Client.initialState 0) _ (lit "Will it rain tomorrow?")
                    _ ltac:(lia) eq_refl)).
  vm_compute. reflexivity.
Defined.

Lemma upstream_sees_the_client_message_witness :
  exists st1 rb params,
    Client.handleSendMessage
      (Some (@Server.Build_Location Hosts.ist (Some 13%Z) (Some 80%Z)))
      1717200000123
      (Client.addAttachments (Client.initialState 0) [Scenarios.soil_report])
      (lit " Is my soil fine? ")
    = (st1, Some rb) /\
    Server.upstream_calls
      (snd (@Server.post_api_chat Hosts.ist
              (fun _ => Server.Rejected (lit "quota exceeded"))
              (received rb)))
    = [params] /\
    List.nth 3 (List.map Server.content (Server.cp_messages params)) []
    = lit "Is my soil fine?" ++ nl ++ lit "[Attached files: soil.pdf]".
Proof.
  do 2 eexists.
  destruct (@upstream_sees_the_client_message Hosts.ist
              (fun _ => Server.Rejected (lit "quota exceeded"))
              (Some (@Server.Build_Location Hosts.ist (Some 13%Z) (Some 80%Z)))
              1717200000123
              (Client.addAttachments (Client.initialState 0)
                 [Scenarios.soil_report])
              _ (lit " Is my soil fine? ") _ eq_refl)
    as [params [Hcalls Hmsgs]].
  exists params. split; [reflexivity|]. split; [exact Hcalls|].
  rewrite Hmsgs. vm_compute. reflexivity.
Defined.

Lemma turn_outcome_witness :
  exists st2,
    @turn Hosts.ist (fun _ => Server.Rejected (lit "quota exceeded")) None
      1000 2000 (Client.initialState 0) (lit "Will it rain tomorrow?")
    = Some st2 /\
    List.map Client.text (Client.messages st2)
    = List.map Client.text (Client.initialMessages 0)
      ++ [lit "Will it rain tomorrow?"; Client.fallback_text].
Proof.
  destruct (@turn_outcome Hosts.ist
              (fun _ => Server.Rejected (lit "quota exceeded")) None
              1000 2000 (Client.initialState 0) (lit "Will it rain tomorrow?"))
    as [st2 [rb [user [bot [Ht [_ [Hm _]]]]]]].
  - left. vm_compute. discriminate.
  - exists st2. split; [exact Ht|].
    vm_compute in Ht. injection Ht as <-. vm_compute. reflexivity.
Defined.

End EndToEnd.
